(** * Loan Stress Monitor: the risk-scoring core of [streamlit_dashboard_enhanced.py]

    A shallow embedding of [load_data] (ratio calculation, loan growth,
    [calc_risk], the [Risk_Category] lambda) and of the aggregate risk display
    ([avg_risk], [risk_cat]), followed by the properties of the scoring rules.

    Numbers are modelled as the program has them: the monetary columns are
    int64 (here [Z]), [Gross_NPA], [Net_NPA] and every derived ratio are
    IEEE binary64 values (here Rocq's primitive [float], which is binary64 with
    round-to-nearest-even, a single NaN and signed infinities), and the risk
    score is a Python [int] (here [Z]). *)

From Stdlib Require Import ZArith List String Bool Lia Floats Permutation Sorted.
From Stdlib Require OrderedTypeEx.
From Stdlib Require QArith Qabs.
Import ListNotations.

Set Warnings "-inexact-float".

Open Scope Z_scope.

(** ** Binary64 helpers *)

Module F64.

(** Conversion of a magnitude up to [2^63] to float64: exact below [2^53],
    rounded to nearest even above. The primitive conversion takes 63-bit
    integers; [2^63] itself is a power of two. *)
Definition of_magnitude (n : Z) : float :=
  if n <? 2 ^ 63 then PrimFloat.of_uint63 (Uint63.of_Z n)
  else PrimFloat.mul (PrimFloat.of_uint63 (Uint63.of_Z (n / 2))) 2.

(** Conversion of an int64 column value to float64, as pandas does before a
    true division. *)
Definition of_int (z : Z) : float :=
  if z <? 0 then PrimFloat.opp (of_magnitude (- z)) else of_magnitude z.

(** Python's [x > y] and [x >= y] on floats. *)
Definition gtb (x y : float) : bool := PrimFloat.ltb y x.
Definition geb (x y : float) : bool := PrimFloat.leb y x.

(** int64 wrap-around of an integer result. *)
Definition wrap64 (z : Z) : Z :=
  (z + 2 ^ 63) mod 2 ^ 64 - 2 ^ 63.

(** A rank for the non-NaN specification floats: [SFcompare] is the
    lexicographic order on ranks. *)
Definition rank (x : spec_float) : option (Z * Z * Z) :=
  match x with
  | S754_nan => None
  | S754_infinity false => Some (2, 0, 0)
  | S754_infinity true => Some (-2, 0, 0)
  | S754_zero _ => Some (0, 0, 0)
  | S754_finite false m e => Some (1, e, Zpos m)
  | S754_finite true m e => Some (-1, - e, - Zpos m)
  end.

Definition lex_lt (p q : Z * Z * Z) : Prop :=
  let '(a, b, c) := p in
  let '(a', b', c') := q in
  a < a' \/ (a = a' /\ (b < b' \/ (b = b' /\ c < c'))).

Definition lex_le (p q : Z * Z * Z) : Prop := lex_lt p q \/ p = q.

End F64.

Import F64.

(** ** Data model *)

(** One dict of the [data] list in [load_data]: a bank in a fiscal year. The
    monetary columns become int64, the two NPA columns float64. *)
Record RawRecord := mkRaw {
  Bank : string;
  Category : string;
  Year : string;
  Advances : Z;
  Deposits : Z;
  Gross_NPA : float;
  Net_NPA : float;
  Borrowings : Z;
  Total_Assets : Z;
  Net_Profit : Z;
  Interest_Income : Z
}.

(** The four "forensic ratio" columns added to the frame. *)
Record Ratios := mkRatios {
  LDR : float;
  AD_Gap_Pct : float;
  Borrowing_Ratio : float;
  Profit_Margin : float
}.

(** A row of the frame as [calc_risk] receives it. *)
Record Row := mkRow {
  rec : RawRecord;
  ratios : Ratios;
  Loan_Growth_Pct : float
}.

(** A row of the frame [load_data] returns. *)
Record ScoredRow := mkScored {
  row : Row;
  Risk_Score : Z;
  Risk_Category : string
}.

(** The literal [data] of [load_data]. *)
Definition data : list RawRecord :=
[
  mkRaw "YES Bank" "Stressed" "FY2017" 157000 174000 0.31 0.20 18000 236000 3260 11500;
  mkRaw "YES Bank" "Stressed" "FY2018" 195000 209000 1.31 0.60 25000 294000 3453 14800;
  mkRaw "YES Bank" "Stressed" "FY2019" 241000 200000 7.39 4.35 45000 350000 (-18564) 16200;
  mkRaw "DHFL" "Stressed" "FY2017" 80000 42000 0.58 0.40 45000 105000 1250 7800;
  mkRaw "DHFL" "Stressed" "FY2018" 105000 45000 1.24 0.82 68000 130000 982 9500;
  mkRaw "DHFL" "Stressed" "FY2019" 116000 38000 4.15 2.65 82000 140000 (-2223) 10200;
  mkRaw "IDBI Bank" "Stressed" "FY2017" 165000 185000 16.50 8.25 28000 290000 (-5663) 15200;
  mkRaw "IDBI Bank" "Stressed" "FY2018" 155000 175000 27.95 15.70 32000 285000 (-8238) 14500;
  mkRaw "IDBI Bank" "Stressed" "FY2019" 148000 170000 28.38 14.95 30000 275000 (-4106) 13800;
  mkRaw "HDFC Bank" "Healthy" "FY2017" 590000 840000 1.00 0.40 12000 1080000 14549 52800;
  mkRaw "HDFC Bank" "Healthy" "FY2018" 710000 975000 1.30 0.40 14000 1240000 17486 61500;
  mkRaw "HDFC Bank" "Healthy" "FY2019" 856000 1140000 1.36 0.41 15000 1445000 21078 70800;
  mkRaw "ICICI Bank" "Healthy" "FY2017" 445000 562000 7.82 4.89 42000 785000 8575 39800;
  mkRaw "ICICI Bank" "Healthy" "FY2018" 512395 615000 6.54 3.95 45000 850000 9624 44200;
  mkRaw "ICICI Bank" "Healthy" "FY2019" 586647 685000 5.95 2.95 48000 945000 12402 48900;
  mkRaw "Kotak Bank" "Healthy" "FY2017" 135000 185000 2.15 1.05 8500 240000 3325 12400;
  mkRaw "Kotak Bank" "Healthy" "FY2018" 165000 220000 2.18 1.12 9800 285000 4185 14800;
  mkRaw "Kotak Bank" "Healthy" "FY2019" 198000 258000 2.53 1.18 11000 335000 4858 17200;
  mkRaw "SBI" "Healthy" "FY2017" 1795000 2635000 6.90 3.71 185000 3200000 10485 185000;
  mkRaw "SBI" "Healthy" "FY2018" 1940000 2890000 10.91 5.73 205000 3580000 (-6547) 198000;
  mkRaw "SBI" "Healthy" "FY2019" 2075000 3085000 7.53 3.01 195000 3820000 862 210000;
  mkRaw "Axis Bank" "Healthy" "FY2017" 385000 480000 4.86 2.61 32000 650000 6068 36500;
  mkRaw "Axis Bank" "Healthy" "FY2018" 445000 535000 5.28 2.77 38000 735000 3679 41200;
  mkRaw "Axis Bank" "Healthy" "FY2019" 515000 605000 5.26 2.13 42000 825000 5251 46800
].

(** ** [load_data] *)

Section LoadData.

Local Open Scope float_scope.

(** [df['LDR']], [df['AD_Gap_Pct']], [df['Borrowing_Ratio']] and
    [df['Profit_Margin']]: int64 columns divided as float64, never raising; a
    zero divisor gives an infinity or NaN. [Advances - Deposits] is an int64
    subtraction. *)
Definition forensic_ratios (r : RawRecord) : Ratios :=
  {| LDR := (of_int (Advances r) / of_int (Deposits r)) * 100;
     AD_Gap_Pct :=
       (of_int (wrap64 (Advances r - Deposits r)) / of_int (Deposits r)) * 100;
     Borrowing_Ratio := (of_int (Borrowings r) / of_int (Total_Assets r)) * 100;
     Profit_Margin := (of_int (Net_Profit r) / of_int (Interest_Income r)) * 100 |}.

(** The order of [df.sort_values(['Bank', 'Year'])]: by bank, then by year,
    both compared as strings. *)
Definition key_leb (a b : RawRecord) : bool :=
  match String.compare (Bank a) (Bank b) with
  | Lt => true
  | Gt => false
  | Eq => String.leb (Year a) (Year b)
  end.

Fixpoint insert_row (x : RawRecord * Ratios) (l : list (RawRecord * Ratios))
  : list (RawRecord * Ratios) :=
  match l with
  | [] => [x]
  | y :: l' => if key_leb (fst x) (fst y) then x :: l else y :: insert_row x l'
  end.

(** [sort_values] on several columns is a stable sort. *)
Fixpoint sort_values (l : list (RawRecord * Ratios)) : list (RawRecord * Ratios) :=
  match l with
  | [] => []
  | x :: l' => insert_row x (sort_values l')
  end.

(** [groupby('Bank')['Advances'].shift(1)] at one row: the advances of the
    nearest row above with the same bank, NaN when there is none. [above] holds
    the rows above, nearest first. *)
Definition shifted (above : list (RawRecord * Ratios)) (bank : string) : float :=
  match find (fun p => String.eqb (Bank (fst p)) bank) above with
  | Some p => of_int (Advances (fst p))
  | None => nan
  end.

(** [df.groupby('Bank')['Advances'].pct_change() * 100], row by row. *)
Fixpoint loan_growth (above rows : list (RawRecord * Ratios)) : list Row :=
  match rows with
  | [] => []
  | p :: rest =>
      {| rec := fst p;
         ratios := snd p;
         Loan_Growth_Pct :=
           (of_int (Advances (fst p)) / shifted above (Bank (fst p)) - 1) * 100 |}
      :: loan_growth (p :: above) rest
  end.

(** [pd.notna]. *)
Definition notna (x : float) : bool := negb (is_nan x).

(** The score before the final [min]. *)
Definition calc_risk_raw (row : Row) : Z :=
  let score := 0%Z in
  let score :=
    if gtb (Gross_NPA (rec row)) 10 then (score + 30)%Z
    else if gtb (Gross_NPA (rec row)) 5 then (score + 20)%Z
    else if gtb (Gross_NPA (rec row)) 2 then (score + 10)%Z
    else score in
  let score :=
    if gtb (LDR (ratios row)) 110 then (score + 25)%Z
    else if gtb (LDR (ratios row)) 95 then (score + 15)%Z
    else if gtb (LDR (ratios row)) 85 then (score + 5)%Z
    else score in
  let score :=
    if gtb (Borrowing_Ratio (ratios row)) 15 then (score + 20)%Z
    else if gtb (Borrowing_Ratio (ratios row)) 10 then (score + 12)%Z
    else if gtb (Borrowing_Ratio (ratios row)) 5 then (score + 5)%Z
    else score in
  let score :=
    if (Net_Profit (rec row) <? 0)%Z then (score + 15)%Z
    else if Profit_Margin (ratios row) <? 5 then (score + 10)%Z
    else if Profit_Margin (ratios row) <? 15 then (score + 5)%Z
    else score in
  let score :=
    if notna (Loan_Growth_Pct row) then
      if gtb (Loan_Growth_Pct row) 35 then (score + 10)%Z
      else if gtb (Loan_Growth_Pct row) 25 then (score + 6)%Z
      else if gtb (Loan_Growth_Pct row) 15 then (score + 3)%Z
      else score
    else score in
  score.

(** [calc_risk(row)]. *)
Definition calc_risk (row : Row) : Z := Z.min (calc_risk_raw row) 100.

(** The lambda that fills [df['Risk_Category']] from the integer score. *)
Definition classify (x : Z) : string :=
  if (x >=? 70)%Z then "HIGH RISK"%string
  else if (x >=? 40)%Z then "MEDIUM RISK"%string
  else "LOW RISK"%string.

Definition score_row (r : Row) : ScoredRow :=
  {| row := r;
     Risk_Score := calc_risk r;
     Risk_Category := classify (calc_risk r) |}.

(** [load_data] with the literal [data] taken as an argument. *)
Definition load_data_from (d : list RawRecord) : list ScoredRow :=
  let df := map (fun r => (r, forensic_ratios r)) d in
  let df := sort_values df in
  let df := loan_growth [] df in
  map score_row df.

(** [load_data()]. *)
Definition load_data : list ScoredRow := load_data_from data.

End LoadData.

(** ** The aggregate risk display *)

Section RiskDisplay.

Local Open Scope string_scope.

(** The three filters applied to [df.copy()]. *)
Definition filter_df (selected_bank selected_year selected_category : string)
  (df : list ScoredRow) : list ScoredRow :=
  let filtered_df := df in
  let filtered_df :=
    if negb (selected_bank =? "All Banks")
    then filter (fun s => Bank (rec (row s)) =? selected_bank) filtered_df
    else filtered_df in
  let filtered_df :=
    if negb (selected_year =? "All Years")
    then filter (fun s => Year (rec (row s)) =? selected_year) filtered_df
    else filtered_df in
  let filtered_df :=
    if negb (selected_category =? "All")
    then filter (fun s => Category (rec (row s)) =? selected_category) filtered_df
    else filtered_df in
  filtered_df.

Definition sum (xs : list Z) : Z := fold_right Z.add 0 xs.

(** [Series.mean()] of an int64 column: the sum and the count are taken as
    float64 and divided. The integer sum is converted once, which is what the
    float64 accumulation gives as long as the partial sums stay below [2^53]. *)
Definition mean (xs : list Z) : float :=
  (of_int (sum xs) / of_int (Z.of_nat (List.length xs)))%float.

Definition avg_risk (filtered_df : list ScoredRow) : float :=
  mean (map Risk_Score filtered_df).

(** The conditional expression that classifies [avg_risk]. *)
Definition risk_cat (avg_risk : float) : string :=
  if geb avg_risk 70 then "HIGH RISK"
  else if geb avg_risk 40 then "MEDIUM RISK"
  else "LOW RISK".

(** The risk score display: the mean and its label for a non-empty selection,
    [None] for the "No data available" warning. *)
Definition risk_display (filtered_df : list ScoredRow) : option (float * string) :=
  if (0 <? Z.of_nat (List.length filtered_df))%Z
  then Some (avg_risk filtered_df, risk_cat (avg_risk filtered_df))
  else None.

End RiskDisplay.

(** ** Record updates used to state the properties *)

Definition with_Net_NPA (v : float) (r : RawRecord) : RawRecord :=
  mkRaw (Bank r) (Category r) (Year r) (Advances r) (Deposits r) (Gross_NPA r) v
        (Borrowings r) (Total_Assets r) (Net_Profit r) (Interest_Income r).

Definition with_Gross_NPA (v : float) (r : Row) : Row :=
  mkRow (mkRaw (Bank (rec r)) (Category (rec r)) (Year (rec r)) (Advances (rec r))
               (Deposits (rec r)) v (Net_NPA (rec r)) (Borrowings (rec r))
               (Total_Assets (rec r)) (Net_Profit (rec r)) (Interest_Income (rec r)))
        (ratios r) (Loan_Growth_Pct r).

Definition with_LDR (v : float) (r : Row) : Row :=
  mkRow (rec r)
        (mkRatios v (AD_Gap_Pct (ratios r)) (Borrowing_Ratio (ratios r))
                  (Profit_Margin (ratios r)))
        (Loan_Growth_Pct r).

Definition with_AD_Gap_Pct (v : float) (r : Row) : Row :=
  mkRow (rec r)
        (mkRatios (LDR (ratios r)) v (Borrowing_Ratio (ratios r))
                  (Profit_Margin (ratios r)))
        (Loan_Growth_Pct r).

Definition with_Borrowing_Ratio (v : float) (r : Row) : Row :=
  mkRow (rec r)
        (mkRatios (LDR (ratios r)) (AD_Gap_Pct (ratios r)) v
                  (Profit_Margin (ratios r)))
        (Loan_Growth_Pct r).

Definition with_Profit_Margin (v : float) (r : Row) : Row :=
  mkRow (rec r)
        (mkRatios (LDR (ratios r)) (AD_Gap_Pct (ratios r))
                  (Borrowing_Ratio (ratios r)) v)
        (Loan_Growth_Pct r).

Definition with_Loan_Growth_Pct (v : float) (r : Row) : Row :=
  mkRow (rec r) (ratios r) v.

(** ** The point-band table of the specification *)

Module Spec.

(** A band of the table: the condition on the row and the points it gives. *)
Record band := mkBand { applies : Row -> bool; points : Z }.

(** The points of the first band that applies, nothing when none does. *)
Definition first_match (bands : list band) (r : Row) : Z :=
  match find (fun b => applies b r) bands with
  | Some b => points b
  | None => 0
  end.

(** The points of all the bands that apply, added up. *)
Definition all_matches (bands : list band) (r : Row) : Z :=
  fold_right Z.add 0 (map points (filter (fun b => applies b r) bands)).

Definition threshold_bands (metric : Row -> float) (t1 t2 t3 : float) (p1 p2 p3 : Z)
  : list band :=
  [ mkBand (fun r => gtb (metric r) t1) p1;
    mkBand (fun r => gtb (metric r) t2 && PrimFloat.leb (metric r) t1) p2;
    mkBand (fun r => gtb (metric r) t3 && PrimFloat.leb (metric r) t2) p3;
    mkBand (fun r => PrimFloat.leb (metric r) t3) 0 ].

Definition gross_npa_bands : list band :=
  threshold_bands (fun r => Gross_NPA (rec r)) 10 5 2 30 20 10.

Definition ldr_bands : list band :=
  threshold_bands (fun r => LDR (ratios r)) 110 95 85 25 15 5.

Definition borrowing_bands : list band :=
  threshold_bands (fun r => Borrowing_Ratio (ratios r)) 15 10 5 20 12 5.

Definition profit_bands : list band :=
  [ mkBand (fun r => Net_Profit (rec r) <? 0) 15;
    mkBand (fun r => PrimFloat.ltb (Profit_Margin (ratios r)) 5) 10;
    mkBand (fun r => PrimFloat.ltb (Profit_Margin (ratios r)) 15) 5;
    mkBand (fun _ => true) 0 ].

Definition growth_bands : list band :=
  threshold_bands Loan_Growth_Pct 35 25 15 10 6 3.

(** Loan growth counts only if defined. *)
Definition growth_points (r : Row) : Z :=
  if is_nan (Loan_Growth_Pct r) then 0 else first_match growth_bands r.

Definition band_sum (r : Row) : Z :=
  first_match gross_npa_bands r + first_match ldr_bands r
  + first_match borrowing_bands r + first_match profit_bands r
  + growth_points r.

(** The label of the exact mean [total / count] of integer scores, with the
    thresholds 70 and 40 cleared of the division. *)
Definition mean_label (total count : Z) : string :=
  if 70 * count <=? total then "HIGH RISK"
  else if 40 * count <=? total then "MEDIUM RISK"
  else "LOW RISK".

End Spec.

(** ** Proof devices *)

(** The points of a three-step [if]/[elif] chain. *)
Definition pts3 (a b c : bool) (p q s : Z) : Z :=
  if a then p else if b then q else if c then s else 0.

(** The five contributions of [calc_risk], metric by metric. *)
Definition npa_pts (r : Row) : Z :=
  pts3 (gtb (Gross_NPA (rec r)) 10) (gtb (Gross_NPA (rec r)) 5)
       (gtb (Gross_NPA (rec r)) 2) 30 20 10.

Definition ldr_pts (r : Row) : Z :=
  pts3 (gtb (LDR (ratios r)) 110) (gtb (LDR (ratios r)) 95)
       (gtb (LDR (ratios r)) 85) 25 15 5.

Definition borrowing_pts (r : Row) : Z :=
  pts3 (gtb (Borrowing_Ratio (ratios r)) 15) (gtb (Borrowing_Ratio (ratios r)) 10)
       (gtb (Borrowing_Ratio (ratios r)) 5) 20 12 5.

Definition profit_pts (r : Row) : Z :=
  pts3 (Net_Profit (rec r) <? 0) (PrimFloat.ltb (Profit_Margin (ratios r)) 5)
       (PrimFloat.ltb (Profit_Margin (ratios r)) 15) 15 10 5.

Definition growth_pts (r : Row) : Z :=
  if notna (Loan_Growth_Pct r)
  then pts3 (gtb (Loan_Growth_Pct r) 35) (gtb (Loan_Growth_Pct r) 25)
            (gtb (Loan_Growth_Pct r) 15) 10 6 3
  else 0.

(** ** Records that differ in [Net_NPA] only *)

(** [r1] is [r2] with another net NPA. *)
Definition same_but_Net_NPA (r1 r2 : RawRecord) : Prop :=
  with_Net_NPA (Net_NPA r1) r2 = r1.

Definition same_but_Net_NPA_ratios (p1 p2 : RawRecord * Ratios) : Prop :=
  same_but_Net_NPA (fst p1) (fst p2) /\ snd p1 = snd p2.

Definition same_but_Net_NPA_row (r1 r2 : Row) : Prop :=
  same_but_Net_NPA (rec r1) (rec r2)
  /\ ratios r1 = ratios r2
  /\ Loan_Growth_Pct r1 = Loan_Growth_Pct r2.

(** The scoring columns of the frame. *)
Definition scoring (s : ScoredRow) : Z * string := (Risk_Score s, Risk_Category s).

(** ** The first fiscal year of a bank *)

(** [r] has the earliest year among the records of its bank in [d]. *)
Definition earliest (d : list RawRecord) (r : RawRecord) : bool :=
  forallb (fun r' => negb (String.eqb (Bank r') (Bank r))
                     || String.leb (Year r) (Year r')) d.

(** The loan growth of a scored row is absent in the first year of its bank
    and a finite number in the later years. *)
Definition growth_by_year (d : list RawRecord) (s : ScoredRow) : bool :=
  if earliest d (rec (row s))
  then is_nan (Loan_Growth_Pct (row s))
  else is_finite (Loan_Growth_Pct (row s)).

(** The key of a record: its bank and its fiscal year. *)
Definition key (r : RawRecord) : string * string := (Bank r, Year r).

(** A bank without advances in three of its four years. *)
Definition zero_advances : list RawRecord :=
  [ mkRaw "Z Bank" "Stressed" "FY2016" 0 1000 1.0 0.5 100 2000 10 100;
    mkRaw "Z Bank" "Stressed" "FY2017" 10 1000 1.0 0.5 100 2000 10 100;
    mkRaw "Z Bank" "Stressed" "FY2018" 0 1000 1.0 0.5 100 2000 10 100;
    mkRaw "Z Bank" "Stressed" "FY2019" 0 1000 1.0 0.5 100 2000 10 100 ].

(** ** Records with a zero denominator *)

(** What the frame holds for a scored row whose record has a zero
    denominator: the ratios over it are infinite or NaN. *)
Definition zero_denominator_ratios (s : ScoredRow) : Prop :=
  (Deposits (rec (row s)) = 0 ->
   is_finite (LDR (ratios (row s))) = false
   /\ is_finite (AD_Gap_Pct (ratios (row s))) = false)
  /\ (Total_Assets (rec (row s)) = 0 ->
      is_finite (Borrowing_Ratio (ratios (row s))) = false)
  /\ (Interest_Income (rec (row s)) = 0 ->
      is_finite (Profit_Margin (ratios (row s))) = false).

(** A record without deposits. *)
Definition no_deposits : RawRecord :=
  mkRaw "NBFC" "Stressed" "FY2019" 116000 0 4.15 2.65 82000 140000 1250 10200.

(** ** The float mean against the exact mean *)

(** The binary64 mean of [count] scores adding up to [total] has the label of
    the exact mean and lies between its floor and its ceiling. *)
Definition mean_agrees (total count : Z) : bool :=
  let q := (of_int total / of_int count)%float in
  String.eqb (risk_cat q) (Spec.mean_label total count)
  && PrimFloat.leb (of_int (total / count)) q
  && PrimFloat.leb q (of_int ((total + count - 1) / count)).

(** The rational number a finite binary64 value stands for. *)
Definition float_value (x : float) : option QArith_base.Q :=
  match Prim2SF x with
  | S754_zero _ => Some (QArith_base.inject_Z 0)
  | S754_finite s m e =>
      Some (QArith_base.Qmult
              (QArith_base.inject_Z (if s then Zneg m else Zpos m))
              (QArith_base.Qpower (QArith_base.inject_Z 2) e))
  | _ => None
  end.

(** The aggregate in the specification's words: the arithmetic mean of the
    group's individual risk scores, taken exactly, and the 70 and 40
    thresholds on it. *)
Module SpecMean.

(** The individual risk scores of the group, added up row after row. *)
Fixpoint total (group : list ScoredRow) : Z :=
  match group with
  | [] => 0
  | s :: rest => Risk_Score s + total rest
  end.

(** Their arithmetic mean, as a fraction. *)
Definition arithmetic_mean (group : list ScoredRow) : QArith_base.Q :=
  QArith_base.Qmake (total group) (Z.to_pos (Z.of_nat (List.length group))).

Definition label (m : QArith_base.Q) : string :=
  if QArith_base.Qle_bool (QArith_base.inject_Z 70) m then "HIGH RISK"
  else if QArith_base.Qle_bool (QArith_base.inject_Z 40) m then "MEDIUM RISK"
  else "LOW RISK".

End SpecMean.

(** The binary64 quotient of [total] by [count] is within [2^-47], half a unit
    in the last place of a number below 128, of the exact fraction, and has
    its label. *)
Definition mean_is_exact (total count : Z) : bool :=
  let q := (of_int total / of_int count)%float in
  match float_value q with
  | Some v =>
      QArith_base.Qle_bool
        (Qabs.Qabs (QArith_base.Qminus v (QArith_base.Qmake total (Z.to_pos count))))
        (QArith_base.Qmake 1 (Pos.pow 2 47))
      && String.eqb (risk_cat q)
                    (SpecMean.label (QArith_base.Qmake total (Z.to_pos count)))
  | None => false
  end.

(** A check on every count from 1 to [rows] and every total from 0 to 100
    times the count. *)
Definition range_check (P : Z -> Z -> bool) (rows : nat) : bool :=
  forallb (fun n => forallb (fun t => P (Z.of_nat t) (Z.of_nat n))
                            (seq 0 (100 * n + 1)))
          (seq 1 rows).

(** ** Sample rows *)

(** A row that reaches the top band of every metric. *)
Definition worst_row : Row :=
  mkRow (mkRaw "Bank" "Stressed" "FY2019" 250000 100000 12.5 6.25 40000 200000
               (-500) 10000)
        (forensic_ratios
           (mkRaw "Bank" "Stressed" "FY2019" 250000 100000 12.5 6.25 40000 200000
                  (-500) 10000))
        40.

(** The HDFC Bank FY2017 row of the frame: the bank's first year. *)
Definition hdfc_fy2017 : Row :=
  mkRow (mkRaw "HDFC Bank" "Healthy" "FY2017" 590000 840000 1.00 0.40 12000
               1080000 14549 52800)
        (forensic_ratios
           (mkRaw "HDFC Bank" "Healthy" "FY2017" 590000 840000 1.00 0.40 12000
                  1080000 14549 52800))
        nan.

(** The group the display averages when YES Bank is selected, with all years
    and both categories. *)
Definition yes_bank_rows : list ScoredRow :=
  filter_df "YES Bank" "All Years" "All" load_data.

(** ** The selection controls and the key metrics *)

Section Controls.

Local Open Scope string_scope.

(** [Series.unique().tolist()]: the values in the order they first appear,
    [seen] being the values met so far. *)
Fixpoint unique_from (seen l : list string) : list string :=
  match l with
  | [] => []
  | x :: l' =>
      if existsb (String.eqb x) seen then unique_from seen l'
      else x :: unique_from (x :: seen) l'
  end.

Definition unique (l : list string) : list string := unique_from [] l.

Fixpoint insert_sorted (x : string) (l : list string) : list string :=
  match l with
  | [] => [x]
  | y :: l' => if String.leb x y then x :: l else y :: insert_sorted x l'
  end.

(** Python's [sorted] on strings: a stable ascending sort. *)
Fixpoint sorted (l : list string) : list string :=
  match l with
  | [] => []
  | x :: l' => insert_sorted x (sorted l')
  end.

(** The options of the three select boxes. *)
Definition bank_list (df : list ScoredRow) : list string :=
  "All Banks" :: sorted (unique (map (fun s => Bank (rec (row s))) df)).

Definition year_list (df : list ScoredRow) : list string :=
  "All Years" :: sorted (unique (map (fun s => Year (rec (row s))) df)).

Definition category_list : list string := ["All"; "Stressed"; "Healthy"].

(** The "High Risk Count" metric:
    [len(filtered_df[filtered_df['Risk_Category'] == 'HIGH RISK'])]. *)
Definition high_risk (filtered_df : list ScoredRow) : Z :=
  Z.of_nat
    (List.length (filter (fun s => Risk_Category s =? "HIGH RISK") filtered_df)).

(** The test a selection makes on a row: a box on its "All" option tests
    nothing. *)
Definition keeps (selected_bank selected_year selected_category : string)
  (s : ScoredRow) : bool :=
  (if negb (selected_bank =? "All Banks")
   then Bank (rec (row s)) =? selected_bank else true)
  && (if negb (selected_year =? "All Years")
      then Year (rec (row s)) =? selected_year else true)
  && (if negb (selected_category =? "All")
      then Category (rec (row s)) =? selected_category else true).

(** What a selection keeps: the sentinel of a box keeps every row. *)
Definition selected (selected_bank selected_year selected_category : string)
  (s : ScoredRow) : Prop :=
  (selected_bank = "All Banks" \/ Bank (rec (row s)) = selected_bank)
  /\ (selected_year = "All Years" \/ Year (rec (row s)) = selected_year)
  /\ (selected_category = "All" \/ Category (rec (row s)) = selected_category).

End Controls.

(** A row that carries the score and the label [load_data] gives it. *)
Definition scored (s : ScoredRow) : Prop :=
  Risk_Score s = calc_risk (row s) /\ Risk_Category s = classify (Risk_Score s).

(** The groups the display averages with HDFC Bank selected, and with YES Bank
    and FY2019 selected. *)
Definition hdfc_rows : list ScoredRow :=
  filter_df "HDFC Bank" "All Years" "All" load_data.

Definition yes_bank_fy2019 : list ScoredRow :=
  filter_df "YES Bank" "FY2019" "All" load_data.

(** ** The script, run after run *)

Section Script.

Local Open Scope string_scope.

(** [st.session_state]: a dict, here its keys with their values. *)
Definition session := list (string * bool).

(** [key in st.session_state]. *)
Definition has_key (key : string) (st : session) : bool :=
  existsb (fun p => fst p =? key) st.

(** [st.session_state[key] = value]. *)
Definition set_key (key : string) (value : bool) (st : session) : session :=
  (key, value) :: filter (fun p => negb (fst p =? key)) st.

(** What the user does before a run of the script: the button and the three
    select boxes. *)
Record Run := mkRun {
  analyze_clicked : bool;
  selected_bank : string;
  selected_year : string;
  selected_category : string
}.

(** One run of the script over the frame [df]: the analysis section it
    renders, if any ([Some None] is the "No data available" warning), and the
    session state it leaves. *)
Definition run_script (df : list ScoredRow) (r : Run) (st : session)
  : option (option (float * string)) * session :=
  if analyze_clicked r || has_key "analyzed" st
  then (Some (risk_display
                (filter_df (selected_bank r) (selected_year r)
                           (selected_category r) df)),
        set_key "analyzed" true st)
  else (None, st).

(** The sections rendered by a series of runs in one session. *)
Fixpoint run_session (df : list ScoredRow) (runs : list Run) (st : session)
  : list (option (option (float * string))) :=
  match runs with
  | [] => []
  | r :: runs' =>
      fst (run_script df r st) :: run_session df runs' (snd (run_script df r st))
  end.

End Script.

(** ** The frame with its row labels *)

Fixpoint insert_labelled (x : nat * RawRecord) (l : list (nat * RawRecord))
  : list (nat * RawRecord) :=
  match l with
  | [] => [x]
  | y :: l' =>
      if key_leb (snd x) (snd y) then x :: l else y :: insert_labelled x l'
  end.

(** [sort_values] on the records with their row labels. *)
Fixpoint sort_labelled (l : list (nat * RawRecord)) : list (nat * RawRecord) :=
  match l with
  | [] => []
  | x :: l' => insert_labelled x (sort_labelled l')
  end.

(** The index of the frame: [pd.DataFrame(data)] labels the records 0, 1, ...
    as they are written, and [sort_values] moves each label with its row. *)
Definition frame_index (d : list RawRecord) : list nat :=
  map fst (sort_labelled (combine (seq 0 (List.length d)) d)).

(** [load_data] over a dataset, with the row labels. Without a record the
    frame has no column, and [df['Advances']] raises [KeyError]: [None]. *)
Definition load_frame (d : list RawRecord) : option (list (nat * ScoredRow)) :=
  match d with
  | [] => None
  | _ :: _ => Some (combine (frame_index d) (load_data_from d))
  end.

(** The label of a row is the place of its record in the dataset. *)
Definition labelled_by (d : list RawRecord) (p : nat * ScoredRow) : Prop :=
  nth_error d (fst p) = Some (rec (row (snd p))).

(** The order of the frame, on its three kinds of rows. *)
Definition key_le (p q : RawRecord * Ratios) : Prop :=
  key_leb (fst p) (fst q) = true.

Definition frame_le (s1 s2 : ScoredRow) : Prop :=
  key_leb (rec (row s1)) (rec (row s2)) = true.

(** No two records of the dataset have the same bank and year. *)
Definition unique_keys (d : list RawRecord) : Prop :=
  forall a b, In a d -> In b d -> Bank a = Bank b -> Year a = Year b -> a = b.

(** The number of metrics that give a row points. *)
Definition scoring_metrics (r : Row) : Z :=
  (if npa_pts r =? 0 then 0 else 1) + (if ldr_pts r =? 0 then 0 else 1)
  + (if borrowing_pts r =? 0 then 0 else 1) + (if profit_pts r =? 0 then 0 else 1)
  + (if growth_pts r =? 0 then 0 else 1).

(** ** Order facts on binary64 *)

Section FloatOrder.

Local Open Scope float_scope.

Lemma SFltb_rank x y :
  SFltb x y = true <->
  exists p q, rank x = Some p /\ rank y = Some q /\ lex_lt p q.
Proof.
  unfold SFltb. split.
  - destruct x as [sx|sx| |sx mx ex], y as [sy|sy| |sy my ey]; simpl;
      try discriminate;
      try (destruct sx); try (destruct sy); simpl; try discriminate;
      intros H; eexists; eexists; (split; [reflexivity|split; [reflexivity|]]);
      unfold lex_lt; try lia.
    + destruct (Z.compare_spec ex ey); try discriminate; try lia.
      change (Pos.compare_cont Eq mx my) with (Pos.compare mx my) in H.
      destruct (Pos.compare_spec mx my); simpl in H; try discriminate; lia.
    + destruct (Z.compare_spec ex ey); try discriminate; try lia.
      change (Pos.compare_cont Eq mx my) with (Pos.compare mx my) in H.
      destruct (Pos.compare_spec mx my); try discriminate; lia.
  - intros (p & q & Hp & Hq & Hlt).
    destruct x as [sx|sx| |sx mx ex], y as [sy|sy| |sy my ey]; simpl in *;
      try discriminate;
      try (destruct sx); try (destruct sy); simpl in *;
      inversion Hp; inversion Hq; subst; unfold lex_lt in Hlt; try lia;
      try reflexivity.
    + destruct (Z.compare_spec ex ey); try lia; try reflexivity.
      change (Pos.compare_cont Eq mx my) with (Pos.compare mx my).
      destruct (Pos.compare_spec mx my); simpl; try lia; reflexivity.
    + destruct (Z.compare_spec ex ey); try lia; try reflexivity.
      change (Pos.compare_cont Eq mx my) with (Pos.compare mx my).
      destruct (Pos.compare_spec mx my); simpl; try lia; reflexivity.
Qed.

Lemma SFleb_rank x y :
  SFleb x y = true <->
  exists p q, rank x = Some p /\ rank y = Some q /\ lex_le p q.
Proof.
  unfold SFleb. split.
  - destruct x as [sx|sx| |sx mx ex], y as [sy|sy| |sy my ey]; simpl;
      try discriminate;
      try (destruct sx); try (destruct sy); simpl; try discriminate;
      intros H; eexists; eexists; (split; [reflexivity|split; [reflexivity|]]);
      unfold lex_le, lex_lt; try (left; lia); try (right; reflexivity).
    + destruct (Z.compare_spec ex ey); try discriminate; try (left; lia).
      change (Pos.compare_cont Eq mx my) with (Pos.compare mx my) in H.
      destruct (Pos.compare_spec mx my); simpl in H; try discriminate;
        [right; subst; reflexivity | left; lia].
    + destruct (Z.compare_spec ex ey); try discriminate; try (left; lia).
      change (Pos.compare_cont Eq mx my) with (Pos.compare mx my) in H.
      destruct (Pos.compare_spec mx my); try discriminate;
        [right; subst; reflexivity | left; lia].
  - intros (p & q & Hp & Hq & Hle).
    destruct x as [sx|sx| |sx mx ex], y as [sy|sy| |sy my ey]; simpl in *;
      try discriminate;
      try (destruct sx); try (destruct sy); simpl in *;
      inversion Hp; inversion Hq; subst; unfold lex_le, lex_lt in Hle;
      try reflexivity;
      try (destruct Hle as [Hle|Hle]; [lia | inversion Hle; lia]).
    + destruct (Z.compare_spec ex ey); try reflexivity.
      * change (Pos.compare_cont Eq mx my) with (Pos.compare mx my).
        destruct (Pos.compare_spec mx my); simpl; try reflexivity.
        destruct Hle as [Hle|Hle]; [lia | inversion Hle; lia].
      * destruct Hle as [Hle|Hle]; [lia | inversion Hle; lia].
    + destruct (Z.compare_spec ex ey); try reflexivity.
      * change (Pos.compare_cont Eq mx my) with (Pos.compare mx my).
        destruct (Pos.compare_spec mx my); simpl; try reflexivity.
        destruct Hle as [Hle|Hle]; [lia | inversion Hle; lia].
      * destruct Hle as [Hle|Hle]; [lia | inversion Hle; lia].
Qed.

Lemma lex_lt_le_trans p q r : lex_lt p q -> lex_le q r -> lex_lt p r.
Proof.
  destruct p as [[a b] c], q as [[a' b'] c'], r as [[a'' b''] c''].
  unfold lex_le, lex_lt. intros H [H'|H']; [lia | inversion H'; subst; lia].
Qed.

Lemma lex_le_lt_trans p q r : lex_le p q -> lex_lt q r -> lex_lt p r.
Proof.
  destruct p as [[a b] c], q as [[a' b'] c'], r as [[a'' b''] c''].
  unfold lex_le, lex_lt. intros [H|H] H'; [lia | inversion H; subst; lia].
Qed.

Lemma lex_lt_irrefl p : ~ lex_lt p p.
Proof. destruct p as [[a b] c]. unfold lex_lt. lia. Qed.

(** [x < y] and [y <= z] give [x < z]. *)
Lemma ltb_leb_trans x y z :
  (x <? y) = true -> (y <=? z) = true -> (x <? z) = true.
Proof.
  rewrite !ltb_spec, leb_spec, !SFltb_rank, SFleb_rank.
  intros (p & q & Hp & Hq & H) (q' & r & Hq' & Hr & H').
  rewrite Hq in Hq'. inversion Hq'; subst q'.
  exists p, r. eauto using lex_lt_le_trans.
Qed.

(** [x <= y] and [y < z] give [x < z]. *)
Lemma leb_ltb_trans x y z :
  (x <=? y) = true -> (y <? z) = true -> (x <? z) = true.
Proof.
  rewrite !ltb_spec, leb_spec, !SFltb_rank, SFleb_rank.
  intros (p & q & Hp & Hq & H) (q' & r & Hq' & Hr & H').
  rewrite Hq in Hq'. inversion Hq'; subst q'.
  exists p, r. eauto using lex_le_lt_trans.
Qed.

(** [x < y] excludes [y <= x]. *)
Lemma ltb_not_leb x y : (x <? y) = true -> (y <=? x) = false.
Proof.
  intros H. destruct (y <=? x) eqn:E; [|reflexivity].
  pose proof (ltb_leb_trans _ _ _ H E) as Hxx.
  rewrite ltb_spec, SFltb_rank in Hxx.
  destruct Hxx as (p & q & Hp & Hq & Hlt).
  rewrite Hp in Hq. inversion Hq; subst q.
  exfalso. eapply lex_lt_irrefl; eauto.
Qed.

(** [x < y] gives [x <= y]. *)
Lemma ltb_leb x y : (x <? y) = true -> (x <=? y) = true.
Proof.
  rewrite ltb_spec, leb_spec, SFltb_rank, SFleb_rank.
  intros (p & q & Hp & Hq & H). exists p, q. unfold lex_le. auto.
Qed.

(** NaN compares false with everything. *)
Lemma is_nan_Prim2SF x : is_nan x = true <-> Prim2SF x = S754_nan.
Proof.
  unfold is_nan. rewrite eqb_spec. unfold SFeqb. split.
  - destruct (Prim2SF x) as [s|s| |s m e]; simpl; try discriminate; auto.
    + destruct s; discriminate.
    + destruct s; rewrite Z.compare_refl;
        change (Pos.compare_cont Eq m m) with (Pos.compare m m);
        rewrite Pos.compare_refl; discriminate.
  - intros ->. reflexivity.
Qed.

Lemma nan_ltb_l x y : is_nan x = true -> (x <? y) = false.
Proof.
  rewrite is_nan_Prim2SF, ltb_spec. intros ->. reflexivity.
Qed.

Lemma nan_ltb_r x y : is_nan y = true -> (x <? y) = false.
Proof.
  rewrite is_nan_Prim2SF, ltb_spec. intros ->.
  destruct (Prim2SF x); reflexivity.
Qed.

Lemma nan_leb_r x y : is_nan y = true -> (x <=? y) = false.
Proof.
  rewrite is_nan_Prim2SF, leb_spec. intros ->.
  destruct (Prim2SF x); reflexivity.
Qed.

Lemma not_nan_rank x : is_nan x = false -> exists p, rank (Prim2SF x) = Some p.
Proof.
  intros H. destruct (Prim2SF x) as [s|s| |s m e] eqn:E.
  - eexists; reflexivity.
  - destruct s; eexists; reflexivity.
  - apply is_nan_Prim2SF in E. congruence.
  - destruct s; eexists; reflexivity.
Qed.

Lemma ltb_not_nan_l x y : (x <? y) = true -> is_nan x = false.
Proof.
  intros H. destruct (is_nan x) eqn:E; [|reflexivity].
  rewrite (nan_ltb_l x y E) in H. discriminate.
Qed.

Lemma ltb_not_nan_r x y : (x <? y) = true -> is_nan y = false.
Proof.
  intros H. destruct (is_nan y) eqn:E; [|reflexivity].
  rewrite (nan_ltb_r x y E) in H. discriminate.
Qed.

Lemma leb_not_nan_l x y : (x <=? y) = true -> is_nan x = false.
Proof.
  intros H. destruct (is_nan x) eqn:E; [|reflexivity].
  apply is_nan_Prim2SF in E. rewrite leb_spec, E in H. discriminate.
Qed.

Lemma leb_not_nan_r x y : (x <=? y) = true -> is_nan y = false.
Proof.
  intros H. destruct (is_nan y) eqn:E; [|reflexivity].
  rewrite (nan_leb_r x y E) in H. discriminate.
Qed.

Lemma lex_total p q : lex_lt q p \/ lex_le p q.
Proof.
  destruct p as [[a b] c], q as [[a' b'] c']. unfold lex_le, lex_lt.
  destruct (Z.eq_dec a a'), (Z.eq_dec b b'), (Z.eq_dec c c'); subst;
    try (right; right; reflexivity); lia.
Qed.

(** Two numbers that are not NaN are comparable. *)
Lemma ltb_false_leb x y :
  is_nan x = false -> is_nan y = false -> (y <? x) = false -> (x <=? y) = true.
Proof.
  intros Hx Hy H.
  destruct (not_nan_rank x Hx) as [p Hp], (not_nan_rank y Hy) as [q Hq].
  rewrite leb_spec, SFleb_rank.
  destruct (lex_total p q) as [Hlt|Hle]; [|eauto 6].
  assert ((y <? x) = true) as H'
      by (rewrite ltb_spec, SFltb_rank; eauto 6).
  congruence.
Qed.

Lemma leb_trans x y z :
  (x <=? y) = true -> (y <=? z) = true -> (x <=? z) = true.
Proof.
  intros Hxy Hyz.
  apply ltb_false_leb;
    [exact (leb_not_nan_l _ _ Hxy) | exact (leb_not_nan_r _ _ Hyz) |].
  destruct (z <? x) eqn:E; [|reflexivity].
  pose proof (ltb_leb_trans _ _ _ E Hxy) as Hzy.
  rewrite (ltb_not_leb _ _ Hzy) in Hyz. discriminate.
Qed.

End FloatOrder.

(** ** The score as a sum of five contributions *)

Ltac chain3 a b c := destruct a; [| destruct b; [| destruct c]].

Lemma calc_risk_raw_pts (r : Row) :
  calc_risk_raw r =
  npa_pts r + ldr_pts r + borrowing_pts r + profit_pts r + growth_pts r.
Proof.
  unfold calc_risk_raw, npa_pts, ldr_pts, borrowing_pts, profit_pts, growth_pts,
    pts3.
  chain3 (gtb (Gross_NPA (rec r)) 10) (gtb (Gross_NPA (rec r)) 5)
         (gtb (Gross_NPA (rec r)) 2);
  chain3 (gtb (LDR (ratios r)) 110) (gtb (LDR (ratios r)) 95)
         (gtb (LDR (ratios r)) 85);
  chain3 (gtb (Borrowing_Ratio (ratios r)) 15) (gtb (Borrowing_Ratio (ratios r)) 10)
         (gtb (Borrowing_Ratio (ratios r)) 5);
  chain3 (Net_Profit (rec r) <? 0) (PrimFloat.ltb (Profit_Margin (ratios r)) 5)
         (PrimFloat.ltb (Profit_Margin (ratios r)) 15);
  (destruct (notna (Loan_Growth_Pct r));
   [ chain3 (gtb (Loan_Growth_Pct r) 35) (gtb (Loan_Growth_Pct r) 25)
            (gtb (Loan_Growth_Pct r) 15) | ]);
  reflexivity.
Qed.

Lemma pts3_bounds a b c p q s :
  0 <= s <= q -> q <= p -> 0 <= pts3 a b c p q s <= p.
Proof. unfold pts3. destruct a, b, c; lia. Qed.

Lemma npa_pts_bounds r : 0 <= npa_pts r <= 30.
Proof. apply pts3_bounds; lia. Qed.

Lemma ldr_pts_bounds r : 0 <= ldr_pts r <= 25.
Proof. apply pts3_bounds; lia. Qed.

Lemma borrowing_pts_bounds r : 0 <= borrowing_pts r <= 20.
Proof. apply pts3_bounds; lia. Qed.

Lemma profit_pts_bounds r : 0 <= profit_pts r <= 15.
Proof. apply pts3_bounds; lia. Qed.

Lemma growth_pts_bounds r : 0 <= growth_pts r <= 10.
Proof.
  unfold growth_pts. destruct (notna _); [apply pts3_bounds; lia | lia].
Qed.

Lemma calc_risk_raw_bounds r : 0 <= calc_risk_raw r <= 100.
Proof.
  rewrite calc_risk_raw_pts.
  pose proof (npa_pts_bounds r). pose proof (ldr_pts_bounds r).
  pose proof (borrowing_pts_bounds r). pose proof (profit_pts_bounds r).
  pose proof (growth_pts_bounds r). lia.
Qed.

Lemma calc_risk_bounds r : 0 <= calc_risk r <= 100.
Proof.
  unfold calc_risk. pose proof (calc_risk_raw_bounds r). lia.
Qed.

(** ** The band table against the code *)

Section BandTable.

Variable metric : Row -> float.
Variables t1 t2 t3 : float.
Variables p1 p2 p3 : Z.
Hypothesis t1_number : is_nan t1 = false.
Hypothesis t2_number : is_nan t2 = false.
Hypothesis t21 : PrimFloat.leb t2 t1 = true.
Hypothesis t32 : PrimFloat.leb t3 t2 = true.

(** On a table of thresholds the first matching band is the branch the
    [if]/[elif] chain takes. *)
Lemma first_match_threshold r :
  Spec.first_match (Spec.threshold_bands metric t1 t2 t3 p1 p2 p3) r =
  pts3 (gtb (metric r) t1) (gtb (metric r) t2) (gtb (metric r) t3) p1 p2 p3.
Proof.
  unfold Spec.first_match, Spec.threshold_bands, pts3, gtb. simpl.
  destruct (PrimFloat.ltb t1 (metric r)) eqn:E1; [reflexivity|].
  destruct (PrimFloat.ltb t2 (metric r)) eqn:E2; simpl.
  - rewrite (ltb_false_leb (metric r) t1); auto.
    exact (ltb_not_nan_r _ _ E2).
  - destruct (PrimFloat.ltb t3 (metric r)) eqn:E3; simpl.
    + rewrite (ltb_false_leb (metric r) t2); auto.
      exact (ltb_not_nan_r _ _ E3).
    + destruct (PrimFloat.leb (metric r) t3); reflexivity.
Qed.

(** The bands of a table of thresholds exclude one another: adding up every
    band that applies gives the first one. *)
Lemma all_matches_threshold r :
  Spec.all_matches (Spec.threshold_bands metric t1 t2 t3 p1 p2 p3) r =
  Spec.first_match (Spec.threshold_bands metric t1 t2 t3 p1 p2 p3) r.
Proof.
  unfold Spec.all_matches, Spec.first_match, Spec.threshold_bands, gtb. simpl.
  destruct (PrimFloat.ltb t1 (metric r)) eqn:E1; simpl.
  - pose proof (leb_ltb_trans _ _ _ t21 E1) as E2.
    pose proof (leb_ltb_trans _ _ _ t32 E2) as E3.
    rewrite E2, E3, (ltb_not_leb _ _ E1), (ltb_not_leb _ _ E2),
      (ltb_not_leb _ _ E3). simpl. lia.
  - destruct (PrimFloat.ltb t2 (metric r)) eqn:E2; simpl.
    + pose proof (leb_ltb_trans _ _ _ t32 E2) as E3.
      rewrite E3, (ltb_not_leb _ _ E2), (ltb_not_leb _ _ E3).
      destruct (PrimFloat.leb (metric r) t1); simpl; lia.
    + destruct (PrimFloat.ltb t3 (metric r)) eqn:E3; simpl.
      * rewrite (ltb_not_leb _ _ E3).
        destruct (PrimFloat.leb (metric r) t2); simpl; lia.
      * destruct (PrimFloat.leb (metric r) t3); simpl; lia.
Qed.

End BandTable.

Lemma gross_npa_first_match r : Spec.first_match Spec.gross_npa_bands r = npa_pts r.
Proof. apply first_match_threshold; reflexivity. Qed.

Lemma ldr_first_match r : Spec.first_match Spec.ldr_bands r = ldr_pts r.
Proof. apply first_match_threshold; reflexivity. Qed.

Lemma borrowing_first_match r :
  Spec.first_match Spec.borrowing_bands r = borrowing_pts r.
Proof. apply first_match_threshold; reflexivity. Qed.

Lemma profit_first_match r : Spec.first_match Spec.profit_bands r = profit_pts r.
Proof.
  unfold Spec.first_match, Spec.profit_bands, profit_pts, pts3. simpl.
  destruct (Net_Profit (rec r) <? 0); [reflexivity|].
  destruct (PrimFloat.ltb (Profit_Margin (ratios r)) 5); [reflexivity|].
  destruct (PrimFloat.ltb (Profit_Margin (ratios r)) 15); reflexivity.
Qed.

Lemma growth_points_pts r : Spec.growth_points r = growth_pts r.
Proof.
  unfold Spec.growth_points, growth_pts, notna.
  destruct (is_nan (Loan_Growth_Pct r)); simpl; [reflexivity|].
  apply first_match_threshold; reflexivity.
Qed.

Lemma band_sum_pts r :
  Spec.band_sum r =
  npa_pts r + ldr_pts r + borrowing_pts r + profit_pts r + growth_pts r.
Proof.
  unfold Spec.band_sum.
  now rewrite gross_npa_first_match, ldr_first_match, borrowing_first_match,
    profit_first_match, growth_points_pts.
Qed.

(** C1. The score [calc_risk] gives a row is the sum of five contributions, one
    per metric, each the points of the first matching band of the table; on
    the four threshold tables at most one band applies, and a gross NPA above
    10 brings 30 points, not 30+20+10. *)
Theorem calc_risk_is_band_sum (r : Row) :
  calc_risk r = Spec.band_sum r
  /\ Spec.all_matches Spec.gross_npa_bands r = Spec.first_match Spec.gross_npa_bands r
  /\ Spec.all_matches Spec.ldr_bands r = Spec.first_match Spec.ldr_bands r
  /\ Spec.all_matches Spec.borrowing_bands r = Spec.first_match Spec.borrowing_bands r
  /\ Spec.all_matches Spec.growth_bands r = Spec.first_match Spec.growth_bands r
  /\ (gtb (Gross_NPA (rec r)) 10 = true ->
      Spec.first_match Spec.gross_npa_bands r = 30).
Proof.
  split; [|repeat split; try (apply all_matches_threshold; reflexivity)].
  - unfold calc_risk. rewrite band_sum_pts, <- calc_risk_raw_pts.
    pose proof (calc_risk_raw_bounds r). lia.
  - intros H. rewrite gross_npa_first_match. unfold npa_pts, pts3.
    now rewrite H.
Qed.

(** The sample rows in the frame: [hdfc_fy2017] is its seventh row, scored 0 and
    LOW RISK, and YES Bank FY2019, its last row, is scored 75 and HIGH RISK. *)
Lemma sample_rows_in_frame :
  nth_error load_data 6 = Some (score_row hdfc_fy2017)
  /\ map scoring (firstn 1 (skipn 6 load_data)) = [(0, "LOW RISK"%string)]
  /\ map scoring (skipn 23 load_data) = [(75, "HIGH RISK"%string)].
Proof. repeat split. Qed.

(** C4. The score of any row lies between 0 and 100. *)
Theorem calc_risk_range (r : Row) : 0 <= calc_risk r <= 100.
Proof.
  destruct (calc_risk_raw_bounds r) as [Hlow Hhigh].
  unfold calc_risk. split.
  - apply Z.min_glb; [exact Hlow | lia].
  - apply Z.le_min_r.
Qed.

(** C8. The five contributions never add up to more than 100, so the final
    [min(score, 100)] returns the sum unchanged; the bound 30+25+20+15+10 is
    reached. *)
Theorem clamp_is_identity (r : Row) :
  calc_risk_raw r <= 100
  /\ calc_risk r = calc_risk_raw r
  /\ npa_pts r <= 30 /\ ldr_pts r <= 25 /\ borrowing_pts r <= 20
  /\ profit_pts r <= 15 /\ growth_pts r <= 10
  /\ calc_risk_raw worst_row = 30 + 25 + 20 + 15 + 10.
Proof.
  pose proof (calc_risk_raw_bounds r) as Hb.
  pose proof (npa_pts_bounds r). pose proof (ldr_pts_bounds r).
  pose proof (borrowing_pts_bounds r). pose proof (profit_pts_bounds r).
  pose proof (growth_pts_bounds r).
  unfold calc_risk. repeat split; try lia.
Qed.

(** ** Classification *)

Section Classification.

Local Open Scope string_scope.

(** C2. The label of an integer score is HIGH RISK exactly from 70 up,
    MEDIUM RISK exactly from 40 to 69, LOW RISK exactly below 40; 70, 69, 40
    and 39 fall on the sides the thresholds say. *)
Theorem classify_thresholds (s : Z) :
  (classify s = "HIGH RISK" <-> 70 <= s)
  /\ (classify s = "MEDIUM RISK" <-> 40 <= s < 70)
  /\ (classify s = "LOW RISK" <-> s < 40)
  /\ classify 70 = "HIGH RISK" /\ classify 69 = "MEDIUM RISK"
  /\ classify 40 = "MEDIUM RISK" /\ classify 39 = "LOW RISK".
Proof.
  unfold classify. rewrite !Z.geb_leb.
  destruct (Z.leb_spec 70 s), (Z.leb_spec 40 s);
    repeat split; intros; try discriminate; try lia; reflexivity.
Qed.

(** C10. Both classifications are total. On every binary64 value, the
    infinities and NaN included, [risk_cat] gives one of the three labels,
    LOW RISK below 40 and HIGH RISK from 70 up; so does [classify] on every
    integer, negative or above 100. *)
Theorem classification_total :
  (forall x : float,
      (risk_cat x = "HIGH RISK" \/ risk_cat x = "MEDIUM RISK"
       \/ risk_cat x = "LOW RISK")
      /\ (PrimFloat.ltb x 40 = true -> risk_cat x = "LOW RISK")
      /\ (PrimFloat.leb 70 x = true -> risk_cat x = "HIGH RISK")
      /\ (PrimFloat.leb 40 x = true -> PrimFloat.ltb x 70 = true ->
          risk_cat x = "MEDIUM RISK"))
  /\ (forall s : Z,
      (classify s = "HIGH RISK" \/ classify s = "MEDIUM RISK"
       \/ classify s = "LOW RISK")
      /\ (s < 40 -> classify s = "LOW RISK")
      /\ (70 <= s -> classify s = "HIGH RISK"))
  /\ risk_cat nan = "LOW RISK"
  /\ risk_cat neg_infinity = "LOW RISK"
  /\ risk_cat infinity = "HIGH RISK"
  /\ risk_cat 69.5 = "MEDIUM RISK".
Proof.
  split; [|split; [|repeat split]].
  - intros x. unfold risk_cat, geb. repeat split.
    + destruct (PrimFloat.leb 70 x); [auto|].
      destruct (PrimFloat.leb 40 x); auto.
    + intros H.
      assert (PrimFloat.leb 40 x = false) as -> by exact (ltb_not_leb _ _ H).
      assert (PrimFloat.ltb x 70 = true) as H70
          by (apply (ltb_leb_trans x 40 70 H); reflexivity).
      now rewrite (ltb_not_leb _ _ H70).
    + intros ->. reflexivity.
    + intros H40 H70. now rewrite (ltb_not_leb _ _ H70), H40.
  - intros s. unfold classify. rewrite !Z.geb_leb.
    destruct (Z.leb_spec 70 s), (Z.leb_spec 40 s);
      repeat split; intros; auto; lia.
Qed.

End Classification.

(** ** Monotonicity of the score in each ratio *)

Lemma pts3_gt_mono t1 t2 t3 p q s x x' :
  0 <= s <= q -> q <= p -> PrimFloat.leb x x' = true ->
  pts3 (gtb x t1) (gtb x t2) (gtb x t3) p q s
  <= pts3 (gtb x' t1) (gtb x' t2) (gtb x' t3) p q s.
Proof.
  intros Hs Hq Hle. unfold pts3, gtb.
  destruct (PrimFloat.ltb t1 x) eqn:E1.
  { rewrite (ltb_leb_trans _ _ _ E1 Hle). lia. }
  destruct (PrimFloat.ltb t2 x) eqn:E2.
  { rewrite (ltb_leb_trans _ _ _ E2 Hle). destruct (PrimFloat.ltb t1 x'); lia. }
  destruct (PrimFloat.ltb t3 x) eqn:E3.
  { rewrite (ltb_leb_trans _ _ _ E3 Hle).
    destruct (PrimFloat.ltb t1 x'), (PrimFloat.ltb t2 x'); lia. }
  destruct (PrimFloat.ltb t1 x'), (PrimFloat.ltb t2 x'), (PrimFloat.ltb t3 x'); lia.
Qed.

Lemma pts3_lt_anti b t2 t3 p q s x x' :
  0 <= s <= q -> q <= p -> PrimFloat.leb x x' = true ->
  pts3 b (PrimFloat.ltb x' t2) (PrimFloat.ltb x' t3) p q s
  <= pts3 b (PrimFloat.ltb x t2) (PrimFloat.ltb x t3) p q s.
Proof.
  intros Hs Hq Hle. unfold pts3. destruct b; [lia|].
  destruct (PrimFloat.ltb x' t2) eqn:E2.
  { rewrite (leb_ltb_trans _ _ _ Hle E2). lia. }
  destruct (PrimFloat.ltb x' t3) eqn:E3.
  { rewrite (leb_ltb_trans _ _ _ Hle E3). destruct (PrimFloat.ltb x t2); lia. }
  destruct (PrimFloat.ltb x t2), (PrimFloat.ltb x t3); lia.
Qed.

Lemma calc_risk_pts r :
  calc_risk r =
  npa_pts r + ldr_pts r + borrowing_pts r + profit_pts r + growth_pts r.
Proof.
  unfold calc_risk. pose proof (calc_risk_raw_bounds r).
  rewrite <- calc_risk_raw_pts. lia.
Qed.

(** The contributions of the metrics an update leaves alone. *)
Ltac frame upd x x' r :=
  repeat match goal with
    | |- context [?f (upd x r)] => progress change (f (upd x r)) with (f r)
    | |- context [?f (upd x' r)] => progress change (f (upd x' r)) with (f r)
    end.

(** C5, as the code has it. Raising the gross NPA, the LDR, the borrowing
    ratio or the loan growth of a row, the rest unchanged, never lowers its
    score; raising its profit margin never raises the score. *)
Theorem calc_risk_monotone (r : Row) (x x' : float)
  (Hle : PrimFloat.leb x x' = true) :
  calc_risk (with_Gross_NPA x r) <= calc_risk (with_Gross_NPA x' r)
  /\ calc_risk (with_LDR x r) <= calc_risk (with_LDR x' r)
  /\ calc_risk (with_Borrowing_Ratio x r) <= calc_risk (with_Borrowing_Ratio x' r)
  /\ calc_risk (with_Loan_Growth_Pct x r) <= calc_risk (with_Loan_Growth_Pct x' r)
  /\ calc_risk (with_Profit_Margin x' r) <= calc_risk (with_Profit_Margin x r).
Proof.
  rewrite !calc_risk_pts. repeat split.
  - assert (npa_pts (with_Gross_NPA x r) <= npa_pts (with_Gross_NPA x' r))
      by (apply pts3_gt_mono; auto; lia).
    frame with_Gross_NPA x x' r. lia.
  - assert (ldr_pts (with_LDR x r) <= ldr_pts (with_LDR x' r))
      by (apply pts3_gt_mono; auto; lia).
    frame with_LDR x x' r. lia.
  - assert (borrowing_pts (with_Borrowing_Ratio x r)
            <= borrowing_pts (with_Borrowing_Ratio x' r))
      by (apply pts3_gt_mono; auto; lia).
    frame with_Borrowing_Ratio x x' r. lia.
  - assert (growth_pts (with_Loan_Growth_Pct x r)
            <= growth_pts (with_Loan_Growth_Pct x' r)).
    { unfold growth_pts, notna. simpl.
      rewrite (leb_not_nan_l _ _ Hle), (leb_not_nan_r _ _ Hle). simpl.
      apply pts3_gt_mono; auto; lia. }
    frame with_Loan_Growth_Pct x x' r. lia.
  - assert (profit_pts (with_Profit_Margin x' r)
            <= profit_pts (with_Profit_Margin x r))
      by (apply pts3_lt_anti; auto; lia).
    frame with_Profit_Margin x x' r. lia.
Qed.

(** The monotonicity at the HDFC Bank FY2017 row with 80 and 120. *)
Lemma calc_risk_monotone_witness :
  PrimFloat.leb 80 120 = true
  /\ calc_risk (with_LDR 80 hdfc_fy2017) <= calc_risk (with_LDR 120 hdfc_fy2017).
Proof.
  split; [reflexivity|].
  exact (proj1 (proj2 (calc_risk_monotone hdfc_fy2017 80 120 eq_refl))).
Defined.

(** C5 as stated fails for the profit margin: on the HDFC Bank FY2017 row a
    margin of 4 scores 10 and a margin of 20 scores 0. *)
Lemma higher_profit_margin_lowers_score :
  PrimFloat.leb 4 20 = true
  /\ calc_risk (with_Profit_Margin 4 hdfc_fy2017) = 10
  /\ calc_risk (with_Profit_Margin 20 hdfc_fy2017) = 0
  /\ ~ (forall (r : Row) (x x' : float),
          PrimFloat.leb x x' = true ->
          calc_risk (with_Profit_Margin x r) <= calc_risk (with_Profit_Margin x' r)).
Proof.
  repeat split.
  intros H. specialize (H hdfc_fy2017 4%float 20%float eq_refl).
  vm_compute in H. apply H. reflexivity.
Qed.

(** ** The score does not read [Net_NPA] or [AD_Gap_Pct] *)

Section NetNPA.

Lemma same_but_Net_NPA_fields r1 r2 :
  same_but_Net_NPA r1 r2 ->
  Bank r1 = Bank r2 /\ Category r1 = Category r2 /\ Year r1 = Year r2
  /\ Advances r1 = Advances r2 /\ Deposits r1 = Deposits r2
  /\ Gross_NPA r1 = Gross_NPA r2 /\ Borrowings r1 = Borrowings r2
  /\ Total_Assets r1 = Total_Assets r2 /\ Net_Profit r1 = Net_Profit r2
  /\ Interest_Income r1 = Interest_Income r2.
Proof.
  unfold same_but_Net_NPA, with_Net_NPA. intros <-. simpl. repeat split.
Qed.

Lemma forensic_ratios_same r1 r2 :
  same_but_Net_NPA r1 r2 -> forensic_ratios r1 = forensic_ratios r2.
Proof.
  intros H. apply same_but_Net_NPA_fields in H.
  destruct H as (_ & _ & _ & Ha & Hd & _ & Hb & Ht & Hp & Hi).
  unfold forensic_ratios. now rewrite Ha, Hd, Hb, Ht, Hp, Hi.
Qed.

Lemma key_leb_same a1 a2 b1 b2 :
  same_but_Net_NPA a1 a2 -> same_but_Net_NPA b1 b2 ->
  key_leb a1 b1 = key_leb a2 b2.
Proof.
  intros Ha Hb. apply same_but_Net_NPA_fields in Ha, Hb.
  destruct Ha as (Hba & _ & Hya & _), Hb as (Hbb & _ & Hyb & _).
  unfold key_leb. now rewrite Hba, Hbb, Hya, Hyb.
Qed.

Lemma insert_row_same x1 x2 l1 l2 :
  same_but_Net_NPA_ratios x1 x2 -> Forall2 same_but_Net_NPA_ratios l1 l2 ->
  Forall2 same_but_Net_NPA_ratios (insert_row x1 l1) (insert_row x2 l2).
Proof.
  intros Hx Hl. induction Hl as [|y1 y2 l1 l2 Hy Hl IH]; simpl.
  - constructor; [exact Hx | constructor].
  - rewrite (key_leb_same _ _ _ _ (proj1 Hx) (proj1 Hy)).
    destruct (key_leb (fst x2) (fst y2)).
    + apply Forall2_cons; [exact Hx|]. apply Forall2_cons; assumption.
    + apply Forall2_cons; assumption.
Qed.

Lemma sort_values_same l1 l2 :
  Forall2 same_but_Net_NPA_ratios l1 l2 ->
  Forall2 same_but_Net_NPA_ratios (sort_values l1) (sort_values l2).
Proof.
  induction 1; simpl; [constructor | now apply insert_row_same].
Qed.

Lemma shifted_same above1 above2 bank :
  Forall2 same_but_Net_NPA_ratios above1 above2 ->
  shifted above1 bank = shifted above2 bank.
Proof.
  unfold shifted. induction 1 as [|p1 p2 l1 l2 Hp Hl IH]; simpl; [reflexivity|].
  destruct (same_but_Net_NPA_fields _ _ (proj1 Hp)) as (Hb & _ & _ & Ha & _).
  rewrite Hb. destruct (String.eqb (Bank (fst p2)) bank); [now rewrite Ha | exact IH].
Qed.

Lemma loan_growth_same rows1 rows2 :
  Forall2 same_but_Net_NPA_ratios rows1 rows2 ->
  forall above1 above2,
    Forall2 same_but_Net_NPA_ratios above1 above2 ->
    Forall2 same_but_Net_NPA_row (loan_growth above1 rows1)
            (loan_growth above2 rows2).
Proof.
  induction 1 as [|p1 p2 l1 l2 Hp Hl IH]; intros above1 above2 Ha; simpl.
  - constructor.
  - constructor.
    + destruct (same_but_Net_NPA_fields _ _ (proj1 Hp)) as (Hb & _ & _ & Hadv & _).
      unfold same_but_Net_NPA_row; simpl.
      rewrite Hb, Hadv, (shifted_same _ _ _ Ha).
      repeat split; [exact (proj1 Hp) | exact (proj2 Hp)].
    + apply IH. constructor; assumption.
Qed.

Lemma calc_risk_same r1 r2 :
  same_but_Net_NPA_row r1 r2 -> calc_risk r1 = calc_risk r2.
Proof.
  intros (Hrec & Hrat & Hg).
  destruct (same_but_Net_NPA_fields _ _ Hrec)
    as (_ & _ & _ & _ & _ & Hnpa & _ & _ & Hp & _).
  unfold calc_risk, calc_risk_raw. now rewrite Hnpa, Hrat, Hp, Hg.
Qed.

(** C9. Two datasets that agree record by record on every raw field but
    [Net_NPA] get the same risk scores and categories, and [calc_risk] gives
    the same score whatever the [AD_Gap_Pct] of its row. *)
Theorem scoring_ignores_net_npa_and_ad_gap :
  (forall d1 d2 : list RawRecord,
      Forall2 same_but_Net_NPA d1 d2 ->
      map scoring (load_data_from d1) = map scoring (load_data_from d2))
  /\ (forall (r : Row) (v : float), calc_risk (with_AD_Gap_Pct v r) = calc_risk r)
  /\ (forall (r : Row) (v : float),
        classify (calc_risk (with_AD_Gap_Pct v r)) = classify (calc_risk r)).
Proof.
  split; [|split; reflexivity].
  intros d1 d2 H. unfold load_data_from.
  assert (Forall2 same_but_Net_NPA_row
            (loan_growth [] (sort_values (map (fun r => (r, forensic_ratios r)) d1)))
            (loan_growth [] (sort_values (map (fun r => (r, forensic_ratios r)) d2))))
    as Hrows.
  { apply loan_growth_same; [|constructor].
    apply sort_values_same.
    induction H; simpl; constructor; auto.
    split; simpl; [assumption | now apply forensic_ratios_same]. }
  induction Hrows as [|r1 r2 l1 l2 Hr Hl IH]; simpl; [reflexivity|].
  unfold scoring at 1 3. simpl.
  now rewrite (calc_risk_same _ _ Hr), IH.
Qed.

(** The scores of [load_data] with every net NPA replaced by zero. *)
Lemma scoring_ignores_net_npa_witness :
  Forall2 same_but_Net_NPA (map (with_Net_NPA 0) data) data
  /\ map scoring (load_data_from (map (with_Net_NPA 0) data)) = map scoring load_data.
Proof.
  assert (Forall2 same_but_Net_NPA (map (with_Net_NPA 0) data) data) as H
      by (unfold data; simpl; repeat constructor).
  split; [exact H|].
  exact (proj1 scoring_ignores_net_npa_and_ad_gap _ _ H).
Defined.

End NetNPA.

(** ** Loan growth *)

Section LoanGrowth.

Local Open Scope float_scope.

Lemma Prim2SF_nan : Prim2SF nan = S754_nan.
Proof. reflexivity. Qed.

(** The percent change against a missing previous year is missing. *)
Lemma pct_change_of_nan x : is_nan ((x / nan - 1) * 100) = true.
Proof.
  apply is_nan_Prim2SF.
  rewrite mul_spec, sub_spec, div_spec, Prim2SF_nan.
  destruct (Prim2SF x); reflexivity.
Qed.

Lemma shifted_none above bank :
  (forall q, In q above -> Bank (fst q) <> bank) -> shifted above bank = nan.
Proof.
  intros H. unfold shifted.
  destruct (find _ above) as [p|] eqn:E; [|reflexivity].
  apply find_some in E. destruct E as [Hin Heq].
  apply String.eqb_eq in Heq. destruct (H p Hin Heq).
Qed.

(** In the frame, a row with no row of its bank above it has no loan growth. *)
Lemma loan_growth_first_row rows :
  forall above pre r post,
    loan_growth above rows = pre ++ r :: post ->
    (forall q, In q above -> Bank (fst q) <> Bank (rec r)) ->
    (forall r', In r' pre -> Bank (rec r') <> Bank (rec r)) ->
    is_nan (Loan_Growth_Pct r) = true.
Proof.
  induction rows as [|p rows IH]; intros above pre r post Heq Habove Hpre.
  - destruct pre; discriminate.
  - simpl in Heq. destruct pre as [|r0 pre]; simpl in Heq.
    + inversion Heq; subst r; simpl in *.
      rewrite (shifted_none _ _ Habove). apply pct_change_of_nan.
    + inversion Heq as [[Hr0 Hrest]].
      apply (IH (p :: above) pre r post Hrest).
      * intros q [<-|Hq]; [|now apply Habove].
        specialize (Hpre r0 (or_introl eq_refl)). now subst r0.
      * intros r' Hr'. apply Hpre. now right.
Qed.

Lemma growth_pts_absent r : is_nan (Loan_Growth_Pct r) = true -> growth_pts r = 0%Z.
Proof. unfold growth_pts, notna. now intros ->. Qed.

(** In the frame of any dataset, a row with no row of its bank above it has
    no loan growth. *)
Lemma frame_first_row d pre post s :
  load_data_from d = pre ++ s :: post ->
  (forall s', In s' pre -> Bank (rec (row s')) <> Bank (rec (row s))) ->
  is_nan (Loan_Growth_Pct (row s)) = true.
Proof.
  intros Heq Hpre. unfold load_data_from in Heq.
  apply map_eq_app in Heq. destruct Heq as (l1 & l2 & Hl & Hpre' & Hl2).
  destruct l2 as [|r l2]; [discriminate|]. simpl in Hl2.
  inversion Hl2 as [[Hs Hpost]]. subst pre s. simpl in *.
  apply (loan_growth_first_row _ _ _ _ _ Hl).
  - intros q [].
  - intros r' Hr'.
    exact (Hpre (score_row r') (in_map score_row _ _ Hr')).
Qed.

End LoanGrowth.

(** ** Zero denominators *)

Section ZeroDenominator.

Local Open Scope float_scope.

Lemma not_finite_nan x : Prim2SF x = S754_nan -> is_finite x = false.
Proof.
  intros H. apply is_nan_Prim2SF in H. unfold is_finite. now rewrite H.
Qed.

Lemma not_finite_infinity x s : Prim2SF x = S754_infinity s -> is_finite x = false.
Proof.
  intros H. unfold is_finite, is_infinity.
  rewrite eqb_spec, abs_spec, H. simpl.
  now rewrite orb_true_r.
Qed.

(** A quotient by zero, times 100, is an infinity or NaN. *)
Lemma div_zero_not_finite x : is_finite ((x / of_int 0) * 100) = false.
Proof.
  assert (Prim2SF ((x / of_int 0) * 100) = S754_nan
          \/ exists s, Prim2SF ((x / of_int 0) * 100) = S754_infinity s) as H.
  { rewrite mul_spec, div_spec.
    change (Prim2SF (of_int 0)) with (S754_zero false).
    set (h := Prim2SF 100). vm_compute in h. subst h.
    destruct (Prim2SF x) as [s|s| |s m e]; simpl; eauto. }
  destruct H as [H|[s H]];
    [exact (not_finite_nan _ H) | exact (not_finite_infinity _ _ H)].
Qed.

Lemma forensic_ratios_zero_denominator r :
  (Deposits r = 0%Z ->
   is_finite (LDR (forensic_ratios r)) = false
   /\ is_finite (AD_Gap_Pct (forensic_ratios r)) = false)
  /\ (Total_Assets r = 0%Z -> is_finite (Borrowing_Ratio (forensic_ratios r)) = false)
  /\ (Interest_Income r = 0%Z -> is_finite (Profit_Margin (forensic_ratios r)) = false).
Proof.
  unfold forensic_ratios; simpl.
  split; [|split]; intros ->; [split|..]; apply div_zero_not_finite.
Qed.

Lemma insert_row_perm x l : Permutation (insert_row x l) (x :: l).
Proof.
  induction l as [|y l IH]; simpl; [reflexivity|].
  destruct (key_leb (fst x) (fst y)); [reflexivity|].
  rewrite IH. apply perm_swap.
Qed.

Lemma sort_values_perm l : Permutation (sort_values l) l.
Proof.
  induction l as [|x l IH]; simpl; [reflexivity|].
  rewrite insert_row_perm. now constructor.
Qed.

Lemma loan_growth_rows above rows :
  map (fun r => (rec r, ratios r)) (loan_growth above rows) = rows.
Proof.
  revert above. induction rows as [|[r q] rows IH]; intros above; simpl;
    [reflexivity | now rewrite IH].
Qed.

(** The frame keeps every record of the dataset, with its forensic ratios. *)
Lemma load_data_from_records d :
  Permutation
    (map (fun s => (rec (row s), ratios (row s))) (load_data_from d))
    (map (fun r => (r, forensic_ratios r)) d).
Proof.
  unfold load_data_from. rewrite map_map. simpl.
  rewrite loan_growth_rows. apply sort_values_perm.
Qed.

(** C6, as the code has it. [load_data] rejects no record: the frame holds
    one scored row for every record of the dataset, its ratios computed from
    the record; a ratio over a zero denominator is an infinity or NaN, and the
    row still gets a score between 0 and 100. *)
Theorem zero_denominator_is_scored (d : list RawRecord) :
  List.length (load_data_from d) = List.length d
  /\ Permutation (map (fun s => rec (row s)) (load_data_from d)) d
  /\ Forall (fun s => ratios (row s) = forensic_ratios (rec (row s))
                      /\ zero_denominator_ratios s
                      /\ Risk_Score s = calc_risk (row s)
                      /\ (0 <= Risk_Score s <= 100)%Z)
            (load_data_from d).
Proof.
  pose proof (load_data_from_records d) as Hperm.
  split; [|split].
  - apply Permutation_length in Hperm. now rewrite !length_map in Hperm.
  - apply (Permutation_map fst) in Hperm.
    rewrite !map_map in Hperm. simpl in Hperm. now rewrite map_id in Hperm.
  - apply Forall_forall. intros s Hs.
    assert (ratios (row s) = forensic_ratios (rec (row s))) as Hr.
    { apply (in_map (fun s => (rec (row s), ratios (row s)))) in Hs.
      apply (Permutation_in _ Hperm) in Hs.
      apply in_map_iff in Hs. destruct Hs as (r & Heq & _).
      inversion Heq. reflexivity. }
    split; [exact Hr|]. split.
    + unfold zero_denominator_ratios. rewrite Hr.
      apply forensic_ratios_zero_denominator.
    + unfold load_data_from in Hs. apply in_map_iff in Hs.
      destruct Hs as (r & <- & _). simpl.
      split; [reflexivity | apply calc_risk_bounds].
Qed.

(** C6 as stated fails: a record without deposits is not rejected; its LDR is
    [+infinity], which earns the top LDR band, and it is scored 60. *)
Lemma zero_deposits_not_rejected :
  Deposits no_deposits = 0%Z
  /\ map (fun s => (LDR (ratios (row s)), AD_Gap_Pct (ratios (row s)),
                    Risk_Score s, Risk_Category s))
         (load_data_from [no_deposits])
     = [(infinity, infinity, 60%Z, "MEDIUM RISK"%string)]
  /\ ldr_pts (mkRow no_deposits (forensic_ratios no_deposits) nan) = 25%Z.
Proof. repeat split. Qed.

End ZeroDenominator.

(** ** The aggregate score *)

Section Aggregate.

Lemma range_check_sound (P : Z -> Z -> bool) (rows : nat) :
  range_check P rows = true ->
  forall total count,
    1 <= count <= Z.of_nat rows -> 0 <= total <= 100 * count ->
    P total count = true.
Proof.
  unfold range_check. intros H total count Hc Ht.
  rewrite forallb_forall in H.
  specialize (H (Z.to_nat count)). rewrite forallb_forall in H.
  rewrite <- (Z2Nat.id count), <- (Z2Nat.id total) by lia.
  apply H; apply in_seq; lia.
Qed.

Lemma means_agree_frame : range_check mean_agrees 24 = true.
Proof. vm_compute. reflexivity. Qed.

Lemma mean_agrees_frame total count :
  1 <= count <= 24 -> 0 <= total <= 100 * count -> mean_agrees total count = true.
Proof.
  intros Hc Ht. apply (range_check_sound mean_agrees 24 means_agree_frame); lia.
Qed.

Lemma sum_scores_bounds (fdf : list ScoredRow) :
  Forall (fun s => Risk_Score s = calc_risk (row s)) fdf ->
  0 <= sum (map Risk_Score fdf) <= 100 * Z.of_nat (List.length fdf).
Proof.
  induction 1 as [|s l Hs Hl IH]; simpl List.length; simpl map; [simpl; lia|].
  unfold sum in *. simpl fold_right.
  pose proof (calc_risk_bounds (row s)). rewrite Hs. lia.
Qed.

Lemma means_exact_frame : range_check mean_is_exact 24 = true.
Proof. vm_compute. reflexivity. Qed.

Lemma sum_is_total (group : list ScoredRow) :
  sum (map Risk_Score group) = SpecMean.total group.
Proof.
  induction group as [|s rest IH]; [reflexivity|].
  simpl. unfold sum in *. simpl. now rewrite IH.
Qed.

(** C3. For a non-empty group of scored rows the display shows the binary64
    quotient of the sum of the rows' own risk scores by their number, with the
    label the 70 and 40 thresholds give it; the ratios of the rows play no
    part, two groups with the same scores getting the same display. For a
    group of at most 24 rows, the size of the frame, that quotient is the
    exact arithmetic mean of the scores to within [2^-47], it has the label
    the thresholds give the exact mean, and it lies between the floor and the
    ceiling of the exact mean. *)
Theorem aggregate_is_mean_of_scores (filtered_df : list ScoredRow)
  (Hne : filtered_df <> [])
  (Hscored : Forall (fun s => Risk_Score s = calc_risk (row s)) filtered_df) :
  let total := SpecMean.total filtered_df in
  let count := Z.of_nat (List.length filtered_df) in
  risk_display filtered_df
  = Some ((of_int total / of_int count)%float,
          risk_cat (of_int total / of_int count)%float)
  /\ (forall other : list ScoredRow,
        map Risk_Score other = map Risk_Score filtered_df ->
        risk_display other = risk_display filtered_df)
  /\ ((List.length filtered_df <= 24)%nat ->
      (exists v : QArith_base.Q,
          float_value (of_int total / of_int count)%float = Some v
          /\ QArith_base.Qle
               (Qabs.Qabs
                  (QArith_base.Qminus v (SpecMean.arithmetic_mean filtered_df)))
               (QArith_base.Qmake 1 (Pos.pow 2 47)))
      /\ risk_cat (of_int total / of_int count)%float
         = SpecMean.label (SpecMean.arithmetic_mean filtered_df)
      /\ risk_cat (of_int total / of_int count)%float = Spec.mean_label total count
      /\ PrimFloat.leb (of_int (total / count)) (of_int total / of_int count) = true
      /\ PrimFloat.leb (of_int total / of_int count)
                       (of_int ((total + count - 1) / count)) = true).
Proof.
  intros total count.
  assert (1 <= count) as Hcount.
  { subst count. destruct filtered_df; [congruence | simpl List.length; lia]. }
  assert (sum (map Risk_Score filtered_df) = total) as Hsum
      by apply sum_is_total.
  split; [|split].
  - unfold risk_display, avg_risk, mean. rewrite length_map, Hsum.
    fold count. destruct (Z.ltb_spec 0 count); [reflexivity | lia].
  - intros other Heq. unfold risk_display, avg_risk, mean.
    rewrite Heq, !length_map.
    now rewrite <- (length_map Risk_Score other), Heq, length_map.
  - intros Hlen.
    assert (0 <= total <= 100 * count) as Htotal
        by (rewrite <- Hsum; now apply sum_scores_bounds).
    assert (1 <= count <= 24) as Hrange by lia.
    pose proof (range_check_sound _ 24 means_exact_frame total count Hrange Htotal)
      as Hexact.
    pose proof (mean_agrees_frame total count Hrange Htotal) as Hagree.
    unfold mean_is_exact in Hexact. cbv zeta in Hexact.
    unfold SpecMean.arithmetic_mean. fold total. fold count.
    destruct (float_value (of_int total / of_int count)) as [v|];
      [|discriminate].
    apply andb_prop in Hexact. destruct Hexact as [Hclose Hlabel].
    apply QArith_base.Qle_bool_iff in Hclose. apply String.eqb_eq in Hlabel.
    unfold mean_agrees in Hagree. cbv zeta in Hagree.
    apply andb_prop in Hagree. destruct Hagree as [Hagree Hceil].
    apply andb_prop in Hagree. destruct Hagree as [Hspec Hfloor].
    apply String.eqb_eq in Hspec.
    split; [exists v; split; [reflexivity | exact Hclose]|]. auto.
Qed.

(** The aggregate at the YES Bank selection: scores 10, 13 and 75, mean 98/3,
    LOW RISK. *)
Lemma aggregate_is_mean_of_scores_witness :
  yes_bank_rows <> []
  /\ Forall (fun s => Risk_Score s = calc_risk (row s)) yes_bank_rows
  /\ map Risk_Score yes_bank_rows = [10; 13; 75]
  /\ risk_display yes_bank_rows
     = Some ((of_int 98 / of_int 3)%float, "LOW RISK"%string).
Proof.
  assert (yes_bank_rows <> []) as Hne
      by (intros H; vm_compute in H; discriminate H).
  assert (Forall (fun s => Risk_Score s = calc_risk (row s)) yes_bank_rows) as Hs.
  { apply Forall_forall. intros s Hin. vm_compute in Hin.
    destruct Hin as [<-|[<-|[<-|[]]]]; reflexivity. }
  split; [exact Hne|]. split; [exact Hs|]. split; [reflexivity|].
  exact (proj1 (aggregate_is_mean_of_scores yes_bank_rows Hne Hs)).
Defined.

End Aggregate.

(** ** The order of the frame *)

Section FrameOrder.

Lemma compare_refl (a : string) : String.compare a a = Eq.
Proof. now apply OrderedTypeEx.String_as_OT.cmp_eq. Qed.

Lemma compare_lt_trans (a b c : string) :
  String.compare a b = Lt -> String.compare b c = Lt -> String.compare a c = Lt.
Proof.
  intros Hab Hbc.
  apply OrderedTypeEx.String_as_OT.cmp_lt in Hab, Hbc.
  apply OrderedTypeEx.String_as_OT.cmp_lt.
  exact (OrderedTypeEx.String_as_OT.lt_trans _ _ _ Hab Hbc).
Qed.

Lemma compare_gt_lt (a b : string) :
  String.compare a b = Gt -> String.compare b a = Lt.
Proof.
  intros H. rewrite String.compare_antisym, H. reflexivity.
Qed.

Lemma string_leb_trans (a b c : string) :
  String.leb a b = true -> String.leb b c = true -> String.leb a c = true.
Proof.
  unfold String.leb.
  destruct (String.compare a b) eqn:Hab; try discriminate; intros _;
    destruct (String.compare b c) eqn:Hbc; try discriminate; intros _.
  - apply String.compare_eq_iff in Hab, Hbc. subst. now rewrite compare_refl.
  - apply String.compare_eq_iff in Hab. subst. now rewrite Hbc.
  - apply String.compare_eq_iff in Hbc. subst. now rewrite Hab.
  - now rewrite (compare_lt_trans _ _ _ Hab Hbc).
Qed.

Lemma key_leb_total a b : key_leb a b = false -> key_leb b a = true.
Proof.
  unfold key_leb.
  destruct (String.compare (Bank a) (Bank b)) eqn:E; try discriminate.
  - apply String.compare_eq_iff in E. rewrite E, compare_refl.
    intros H. destruct (String.leb_total (Year a) (Year b)); congruence.
  - now rewrite (compare_gt_lt _ _ E).
Qed.

Lemma key_leb_trans a b c :
  key_leb a b = true -> key_leb b c = true -> key_leb a c = true.
Proof.
  unfold key_leb.
  destruct (String.compare (Bank a) (Bank b)) eqn:Hab; try discriminate;
    destruct (String.compare (Bank b) (Bank c)) eqn:Hbc; try discriminate.
  - apply String.compare_eq_iff in Hab, Hbc. rewrite Hab, Hbc, compare_refl.
    apply string_leb_trans.
  - apply String.compare_eq_iff in Hab. now rewrite Hab, Hbc.
  - apply String.compare_eq_iff in Hbc. now rewrite <- Hbc, Hab.
  - now rewrite (compare_lt_trans _ _ _ Hab Hbc).
Qed.

Lemma key_leb_antisym a b :
  key_leb a b = true -> key_leb b a = true ->
  Bank a = Bank b /\ Year a = Year b.
Proof.
  unfold key_leb.
  destruct (String.compare (Bank a) (Bank b)) eqn:E; try discriminate.
  - apply String.compare_eq_iff in E. rewrite E, compare_refl. intros H1 H2.
    split; [reflexivity | now apply String.leb_antisym].
  - rewrite String.compare_antisym, E. discriminate.
Qed.

Lemma key_leb_same_bank a b :
  key_leb a b = true -> Bank a = Bank b -> String.leb (Year a) (Year b) = true.
Proof.
  unfold key_leb. intros H Hb. now rewrite Hb, compare_refl in H.
Qed.

Lemma insert_row_head x l : Forall (key_le x) l -> insert_row x l = x :: l.
Proof.
  destruct l as [|y l]; [reflexivity|]. intros H. simpl.
  apply Forall_inv in H. unfold key_le in H. now rewrite H.
Qed.

Lemma insert_row_Forall (P : RawRecord * Ratios -> Prop) x l :
  P x -> Forall P l -> Forall P (insert_row x l).
Proof.
  intros Hx Hl. induction Hl as [|y l Hy Hl IH]; simpl.
  - now constructor.
  - destruct (key_leb (fst x) (fst y)); repeat (constructor; auto).
Qed.

Lemma insert_row_sorted x l :
  StronglySorted key_le l -> StronglySorted key_le (insert_row x l).
Proof.
  induction 1 as [|y l Hs IH Hy]; simpl.
  - constructor; constructor.
  - destruct (key_leb (fst x) (fst y)) eqn:E.
    + constructor; [now constructor|].
      constructor; [exact E|].
      eapply Forall_impl; [|exact Hy].
      intros z Hz. exact (key_leb_trans _ _ _ E Hz).
    + constructor; [exact IH|].
      apply insert_row_Forall; [exact (key_leb_total _ _ E) | exact Hy].
Qed.

Lemma sort_values_sorted l : StronglySorted key_le (sort_values l).
Proof.
  induction l as [|x l IH]; simpl; [constructor | now apply insert_row_sorted].
Qed.

(** Sorting a sorted frame changes nothing. *)
Lemma sort_values_of_sorted l : StronglySorted key_le l -> sort_values l = l.
Proof.
  induction 1 as [|x l Hs IH Hx]; simpl; [reflexivity|].
  rewrite IH. now apply insert_row_head.
Qed.

Lemma StronglySorted_map {A B : Type} (f : A -> B) (R : B -> B -> Prop) l :
  StronglySorted R (map f l) -> StronglySorted (fun a b => R (f a) (f b)) l.
Proof.
  induction l as [|x l IH]; simpl; intros H; [constructor|].
  inversion H as [|? ? Hs Hx]; subst. constructor; [now apply IH|].
  apply Forall_forall. intros y Hy.
  rewrite Forall_forall in Hx. apply Hx. now apply in_map.
Qed.

Lemma frame_rows d :
  map (fun s => (rec (row s), ratios (row s))) (load_data_from d)
  = sort_values (map (fun r => (r, forensic_ratios r)) d).
Proof.
  unfold load_data_from. rewrite map_map. simpl. apply loan_growth_rows.
Qed.

Lemma frame_sorted d : StronglySorted frame_le (load_data_from d).
Proof.
  apply (StronglySorted_map (fun s => (rec (row s), ratios (row s))) key_le).
  rewrite frame_rows. apply sort_values_sorted.
Qed.

(** X1. The frame of any dataset is in ascending order of bank, then year:
    every row is at or below every row after it. *)
Theorem frame_is_sorted (d : list RawRecord) :
  StronglySorted frame_le (load_data_from d)
  /\ (forall pre s1 mid s2 post,
        load_data_from d = pre ++ s1 :: mid ++ s2 :: post ->
        key_leb (rec (row s1)) (rec (row s2)) = true
        /\ (Bank (rec (row s1)) = Bank (rec (row s2)) ->
            String.leb (Year (rec (row s1))) (Year (rec (row s2))) = true)).
Proof.
  pose proof (frame_sorted d) as Hs. split; [exact Hs|].
  intros pre s1 mid s2 post Heq. rewrite Heq in Hs.
  assert (frame_le s1 s2) as H12.
  { clear Heq. induction pre as [|x pre IH]; simpl in Hs.
    - inversion Hs as [|? ? _ Hall]; subst.
      rewrite Forall_forall in Hall. apply Hall.
      apply in_or_app. right. now left.
    - inversion Hs; subst. now apply IH. }
  split; [exact H12 | now apply key_leb_same_bank].
Qed.

Lemma sort_values_ratios d :
  Forall (fun p => snd p = forensic_ratios (fst p))
         (sort_values (map (fun r => (r, forensic_ratios r)) d)).
Proof.
  apply Forall_forall. intros p Hp.
  apply (Permutation_in _ (sort_values_perm _)) in Hp.
  apply in_map_iff in Hp. destruct Hp as (r & <- & _). reflexivity.
Qed.

Lemma pair_with_ratios l :
  Forall (fun p => snd p = forensic_ratios (fst p)) l ->
  map (fun r => (r, forensic_ratios r)) (map fst l) = l.
Proof.
  induction 1 as [|[r q] l Hp Hl IH]; simpl in *; [reflexivity|].
  now rewrite IH, Hp.
Qed.

(** The records of a frame load to the same rows. *)
Lemma reload_rows (d : list RawRecord) :
  load_data_from (map (fun s => rec (row s)) (load_data_from d)) = load_data_from d.
Proof.
  assert (map (fun s => rec (row s)) (load_data_from d)
          = map fst (sort_values (map (fun r => (r, forensic_ratios r)) d))) as Hrec.
  { rewrite <- frame_rows, map_map. reflexivity. }
  unfold load_data_from at 1. rewrite Hrec.
  rewrite (pair_with_ratios _ (sort_values_ratios d)).
  rewrite (sort_values_of_sorted _ (sort_values_sorted _)).
  reflexivity.
Qed.

(** Two sorted frames with the same rows, no two of them with the same key,
    are the same frame. *)
Lemma sorted_perm_eq (l1 : list (RawRecord * Ratios)) :
  forall l2,
    StronglySorted key_le l1 -> StronglySorted key_le l2 ->
    Permutation l1 l2 ->
    (forall p q, In p l1 -> In q l1 -> key_le p q -> key_le q p -> p = q) ->
    l1 = l2.
Proof.
  induction l1 as [|x l1 IH]; intros l2 Hs1 Hs2 Hperm Hanti.
  - apply Permutation_nil in Hperm. now subst.
  - destruct l2 as [|y l2].
    { apply Permutation_sym, Permutation_nil in Hperm. discriminate. }
    inversion Hs1 as [|? ? Hs1' Hx]; subst.
    inversion Hs2 as [|? ? Hs2' Hy]; subst.
    rewrite Forall_forall in Hx, Hy.
    assert (x = y) as ->.
    { assert (In x (y :: l2)) as Hxin
          by (apply (Permutation_in _ Hperm); now left).
      assert (In y (x :: l1)) as Hyin
          by (apply (Permutation_in _ (Permutation_sym Hperm)); now left).
      destruct Hxin as [Hxy|Hxin]; [now subst|].
      destruct Hyin as [Hyx|Hyin]; [now subst|].
      apply Hanti; [now left | now right | now apply Hx | now apply Hy]. }
    f_equal. apply IH; auto.
    + exact (Permutation_cons_inv Hperm).
    + intros p q Hp Hq. apply Hanti; now right.
Qed.

(** The records in another order load to the same rows. *)
Lemma permuted_rows (d d' : list RawRecord)
  (Hkeys : unique_keys d) (Hperm : Permutation d d') :
  load_data_from d = load_data_from d'.
Proof.
  unfold load_data_from.
  rewrite (sorted_perm_eq
             (sort_values (map (fun r => (r, forensic_ratios r)) d))
             (sort_values (map (fun r => (r, forensic_ratios r)) d')));
    [reflexivity | apply sort_values_sorted | apply sort_values_sorted | |].
  - rewrite sort_values_perm, sort_values_perm. now apply Permutation_map.
  - intros p q Hp Hq Hpq Hqp.
    apply (Permutation_in _ (sort_values_perm _)) in Hp, Hq.
    apply in_map_iff in Hp, Hq.
    destruct Hp as (a & <- & Ha), Hq as (b & <- & Hb).
    destruct (key_leb_antisym _ _ Hpq Hqp) as [Hbank Hyear]. simpl in *.
    now rewrite (Hkeys a b Ha Hb Hbank Hyear).
Qed.

Lemma data_unique_keys : unique_keys data.
Proof.
  intros a b Ha Hb. unfold data in Ha, Hb. simpl in Ha, Hb.
  repeat (destruct Ha as [<-|Ha]; [|]);
    try (exfalso; exact Ha);
    repeat (destruct Hb as [<-|Hb]; [|]);
    try (exfalso; exact Hb);
    simpl; intros H1 H2; try reflexivity; try discriminate.
Qed.

End FrameOrder.

(** ** The bank filter and the frame *)

Section BankFilter.

Lemma filter_of_map {A B : Type} (f : A -> B) (p : B -> bool) l :
  filter p (map f l) = map f (filter (fun a => p (f a)) l).
Proof.
  induction l as [|a l IH]; simpl; [reflexivity|].
  destruct (p (f a)); simpl; now rewrite IH.
Qed.

Lemma filter_insert_row (p : RawRecord * Ratios -> bool) x l :
  StronglySorted key_le l ->
  filter p (insert_row x l)
  = if p x then insert_row x (filter p l) else filter p l.
Proof.
  induction 1 as [|y l Hs IH Hy]; simpl.
  - destruct (p x); reflexivity.
  - destruct (key_leb (fst x) (fst y)) eqn:E; simpl.
    + change (if p y then y :: filter p l else filter p l)
        with (filter p (y :: l)).
      destruct (p x); [|reflexivity].
      symmetry. apply insert_row_head.
      assert (Forall (key_le x) (y :: l)) as Hall.
      { constructor; [exact E|].
        eapply Forall_impl; [|exact Hy].
        intros z Hz. exact (key_leb_trans _ _ _ E Hz). }
      apply Forall_forall. intros z Hz.
      apply filter_In in Hz. rewrite Forall_forall in Hall. now apply Hall.
    + rewrite IH. destruct (p y), (p x); simpl; try reflexivity.
      now rewrite E.
Qed.

Lemma filter_sort_values (p : RawRecord * Ratios -> bool) l :
  filter p (sort_values l) = sort_values (filter p l).
Proof.
  induction l as [|x l IH]; simpl; [reflexivity|].
  rewrite (filter_insert_row p x _ (sort_values_sorted l)), IH.
  destruct (p x); reflexivity.
Qed.

Lemma shifted_filter above bank :
  shifted (filter (fun p => String.eqb (Bank (fst p)) bank) above) bank
  = shifted above bank.
Proof.
  unfold shifted. induction above as [|q above IH]; simpl; [reflexivity|].
  destruct (String.eqb (Bank (fst q)) bank) eqn:E; simpl; [now rewrite E | exact IH].
Qed.

Lemma loan_growth_filter bank rows :
  forall above,
    filter (fun r => String.eqb (Bank (rec r)) bank) (loan_growth above rows)
    = loan_growth (filter (fun p => String.eqb (Bank (fst p)) bank) above)
                  (filter (fun p => String.eqb (Bank (fst p)) bank) rows).
Proof.
  induction rows as [|p rows IH]; intros above; simpl; [reflexivity|].
  rewrite IH. simpl.
  destruct (String.eqb (Bank (fst p)) bank) eqn:E; simpl; [|reflexivity].
  apply String.eqb_eq in E. now rewrite E, shifted_filter.
Qed.

(** The rows of a bank are the rows its records load to. *)
Lemma bank_rows (d : list RawRecord) (bank : string) :
  filter (fun s => String.eqb (Bank (rec (row s))) bank) (load_data_from d)
  = load_data_from (filter (fun r => String.eqb (Bank r) bank) d).
Proof.
  unfold load_data_from.
  rewrite (filter_of_map score_row), (loan_growth_filter bank).
  simpl filter at 1.
  rewrite filter_sort_values, (filter_of_map (fun r => (r, forensic_ratios r))).
  reflexivity.
Qed.

End BankFilter.

(** ** The frame with its row labels *)

Section LabelledFrame.

Lemma combine_fst {A B : Type} (l1 : list A) : forall l2 : list B,
  List.length l1 = List.length l2 -> map fst (combine l1 l2) = l1.
Proof.
  induction l1 as [|a l1 IH]; intros [|b l2] H; simpl in *;
    try discriminate; [reflexivity|]. now rewrite IH by lia.
Qed.

Lemma combine_snd {A B : Type} (l1 : list A) : forall l2 : list B,
  List.length l1 = List.length l2 -> map snd (combine l1 l2) = l2.
Proof.
  induction l1 as [|a l1 IH]; intros [|b l2] H; simpl in *;
    try discriminate; [reflexivity|]. now rewrite IH by lia.
Qed.

Lemma insert_labelled_perm x l : Permutation (insert_labelled x l) (x :: l).
Proof.
  induction l as [|y l IH]; simpl; [reflexivity|].
  destruct (key_leb (snd x) (snd y)); [reflexivity|].
  rewrite IH. apply perm_swap.
Qed.

Lemma sort_labelled_perm l : Permutation (sort_labelled l) l.
Proof.
  induction l as [|x l IH]; simpl; [reflexivity|].
  rewrite insert_labelled_perm. now constructor.
Qed.

(** The labelled sort and the sort of the frame move the rows alike. *)
Lemma insert_labelled_rows x y labelled : forall rows,
  snd x = fst y -> map snd labelled = map fst rows ->
  map snd (insert_labelled x labelled) = map fst (insert_row y rows).
Proof.
  induction labelled as [|a labelled IH]; intros [|b rows] Hxy H; simpl in *;
    try discriminate.
  - now rewrite Hxy.
  - inversion H as [[Hab Hrest]]. rewrite Hxy, Hab.
    destruct (key_leb (fst y) (fst b)); simpl.
    + now rewrite Hxy, Hab, Hrest.
    + rewrite Hab. f_equal. now apply IH.
Qed.

Lemma sort_labelled_rows l :
  map snd (sort_labelled l)
  = map fst (sort_values (map (fun p => (snd p, forensic_ratios (snd p))) l)).
Proof.
  induction l as [|x l IH]; simpl; [reflexivity|].
  now apply insert_labelled_rows.
Qed.

Lemma frame_length d : List.length (load_data_from d) = List.length d.
Proof.
  pose proof (load_data_from_records d) as H.
  apply Permutation_length in H. now rewrite !length_map in H.
Qed.

Lemma frame_index_length d : List.length (frame_index d) = List.length d.
Proof.
  unfold frame_index.
  rewrite length_map, (Permutation_length (sort_labelled_perm _)).
  rewrite length_combine, length_seq. lia.
Qed.

Lemma frame_index_rows d :
  map (fun s => rec (row s)) (load_data_from d)
  = map snd (sort_labelled (combine (seq 0 (List.length d)) d)).
Proof.
  rewrite sort_labelled_rows.
  rewrite <- (map_map snd (fun r => (r, forensic_ratios r))).
  rewrite combine_snd by apply length_seq.
  rewrite <- frame_rows, map_map. reflexivity.
Qed.

Lemma in_combine_seq (d : list RawRecord) : forall a i r,
  In (i, r) (combine (seq a (List.length d)) d) ->
  (a <= i)%nat /\ nth_error d (i - a) = Some r.
Proof.
  induction d as [|r0 d IH]; intros a i r Hin; simpl in Hin; [destruct Hin|].
  destruct Hin as [Heq|Hin].
  - inversion Heq; subst. rewrite Nat.sub_diag. split; [lia | reflexivity].
  - destruct (IH _ _ _ Hin) as [Hle Hnth]. split; [lia|].
    replace (i - a)%nat with (S (i - S a)) by lia. exact Hnth.
Qed.

Lemma combine_labelled d labelled : forall rows,
  map (fun s => rec (row s)) rows = map snd labelled ->
  Forall (fun q => nth_error d (fst q) = Some (snd q)) labelled ->
  Forall (labelled_by d) (combine (map fst labelled) rows).
Proof.
  induction labelled as [|q labelled IH]; intros [|s rows] Hmap Hall;
    simpl in *; try discriminate; [constructor|].
  inversion Hmap as [[Hs Hrest]]. inversion Hall as [|? ? Hq Hall']; subst.
  constructor; [|now apply IH].
  unfold labelled_by. simpl. now rewrite Hs.
Qed.

(** Each row of the frame carries the place of its record in the dataset. *)
Lemma frame_labelled d :
  Forall (labelled_by d) (combine (frame_index d) (load_data_from d)).
Proof.
  unfold frame_index. apply combine_labelled; [apply frame_index_rows|].
  apply Forall_forall. intros [i r] Hin.
  apply (Permutation_in _ (sort_labelled_perm _)) in Hin.
  apply in_combine_seq in Hin. destruct Hin as [_ Hnth].
  simpl. now rewrite Nat.sub_0_r in Hnth.
Qed.

Lemma insert_labelled_head x l :
  Forall (fun y => key_leb (snd x) (snd y) = true) l -> insert_labelled x l = x :: l.
Proof.
  destruct l as [|y l]; [reflexivity|]. intros H. simpl.
  apply Forall_inv in H. now rewrite H.
Qed.

Lemma sort_labelled_of_sorted l :
  StronglySorted (fun a b => key_leb (snd a) (snd b) = true) l ->
  sort_labelled l = l.
Proof.
  induction 1 as [|x l Hs IH Hx]; simpl; [reflexivity|].
  rewrite IH. now apply insert_labelled_head.
Qed.

Lemma combine_sorted (d : list RawRecord) :
  StronglySorted (fun a b => key_leb a b = true) d ->
  forall labels : list nat,
    StronglySorted (fun a b => key_leb (snd a) (snd b) = true) (combine labels d).
Proof.
  induction 1 as [|r d Hs IH Hr]; intros [|i labels]; simpl; try constructor.
  - apply IH.
  - apply Forall_forall. intros [j r'] Hin. apply in_combine_r in Hin.
    rewrite Forall_forall in Hr. simpl. now apply Hr.
Qed.

Lemma StronglySorted_of_map {A B : Type} (f : A -> B) (R : B -> B -> Prop) l :
  StronglySorted (fun a b => R (f a) (f b)) l -> StronglySorted R (map f l).
Proof.
  induction 1 as [|x l Hs IH Hx]; simpl; constructor; [exact IH|].
  apply Forall_forall. intros y Hy. apply in_map_iff in Hy.
  destruct Hy as (a & <- & Ha). rewrite Forall_forall in Hx. now apply Hx.
Qed.

(** The records of a frame, loaded again, are labelled in the order of the
    frame. *)
Lemma frame_index_of_frame d :
  frame_index (map (fun s => rec (row s)) (load_data_from d))
  = seq 0 (List.length d).
Proof.
  unfold frame_index. rewrite length_map, frame_length.
  rewrite sort_labelled_of_sorted.
  - apply combine_fst. now rewrite length_seq, length_map, frame_length.
  - apply combine_sorted.
    apply (StronglySorted_of_map (fun s => rec (row s))
             (fun a b => key_leb a b = true)).
    apply frame_sorted.
Qed.

Lemma load_frame_rows d frame :
  load_frame d = Some frame ->
  d <> [] /\ frame = combine (frame_index d) (load_data_from d)
  /\ map snd frame = load_data_from d /\ map fst frame = frame_index d
  /\ List.length frame = List.length d.
Proof.
  destruct d as [|r d]; [discriminate|]. intros H. inversion H as [Hf].
  split; [discriminate|]. split; [reflexivity|].
  rewrite combine_snd, combine_fst, length_combine, frame_index_length, frame_length
    by (now rewrite frame_index_length, frame_length).
  repeat split. lia.
Qed.

Lemma load_frame_some d :
  d <> [] -> load_frame d = Some (combine (frame_index d) (load_data_from d)).
Proof. destruct d; [congruence | reflexivity]. Qed.

(** X2. A frame that loads, loaded again from its own records, has the same
    rows with the same columns in the same order, and the row labels 0, 1, ...
    in that order. *)
Theorem reload_keeps_rows (d : list RawRecord) (frame : list (nat * ScoredRow))
  (Hload : load_frame d = Some frame) :
  load_frame (map (fun p => rec (row (snd p))) frame)
  = Some (combine (seq 0 (List.length frame)) (map snd frame)).
Proof.
  destruct (load_frame_rows d frame Hload) as (Hne & _ & Hrows & _ & Hlen).
  rewrite <- (map_map snd (fun s => rec (row s))), Hrows.
  rewrite load_frame_some.
  - now rewrite frame_index_of_frame, reload_rows, Hlen.
  - intros Hnil. apply (f_equal (@List.length _)) in Hnil.
    rewrite length_map, frame_length in Hnil.
    destruct d; [congruence | discriminate].
Qed.

(** The frame of [load_data], loaded again. *)
Lemma reload_keeps_rows_witness :
  exists frame,
    load_frame data = Some frame
    /\ List.length frame = 24%nat
    /\ map fst (firstn 3 frame) = [21; 22; 23]%nat
    /\ load_frame (map (fun p => rec (row (snd p))) frame)
       = Some (combine (seq 0 (List.length frame)) (map snd frame)).
Proof.
  exists (combine (frame_index data) (load_data_from data)).
  assert (load_frame data = Some (combine (frame_index data) (load_data_from data)))
    as Hload by reflexivity.
  split; [exact Hload|]. split; [reflexivity|]. split; [reflexivity|].
  exact (reload_keeps_rows data _ Hload).
Defined.

(** X3. With no two records for the same bank and year, the order in which
    the records are written changes only the row labels of the frame: the
    records in another order load to the same rows with the same columns in
    the same order, each row labelled with the place of its record in the
    dataset it was loaded from. *)
Theorem record_order_changes_labels_only (d d' : list RawRecord)
  (frame : list (nat * ScoredRow))
  (Hkeys : unique_keys d) (Hperm : Permutation d d')
  (Hload : load_frame d = Some frame) :
  exists frame',
    load_frame d' = Some frame'
    /\ map snd frame' = map snd frame
    /\ Forall (labelled_by d) frame
    /\ Forall (labelled_by d') frame'.
Proof.
  destruct (load_frame_rows d frame Hload) as (Hne & Hframe & Hrows & _ & _).
  assert (d' <> []) as Hne'.
  { intros ->. apply Permutation_sym, Permutation_nil in Hperm. contradiction. }
  exists (combine (frame_index d') (load_data_from d')).
  split; [now apply load_frame_some|].
  split; [|split].
  - rewrite combine_snd by (now rewrite frame_index_length, frame_length).
    rewrite Hrows. symmetry. now apply permuted_rows.
  - rewrite Hframe. apply frame_labelled.
  - apply frame_labelled.
Qed.

(** The dataset of [load_data] written backwards: the same rows, the first
    labelled 21 in one frame and 2 in the other. *)
Lemma record_order_changes_labels_only_witness :
  exists frame frame',
    unique_keys data /\ Permutation data (rev data)
    /\ load_frame data = Some frame
    /\ load_frame (rev data) = Some frame'
    /\ map snd frame' = map snd frame
    /\ map fst (firstn 1 frame) = [21%nat]
    /\ map fst (firstn 1 frame') = [2%nat].
Proof.
  assert (load_frame data = Some (combine (frame_index data) (load_data_from data)))
    as Hload by reflexivity.
  destruct (record_order_changes_labels_only data (rev data) _ data_unique_keys
              (Permutation_rev data) Hload) as (frame' & Hload' & Hrows & _ & _).
  exists (combine (frame_index data) (load_data_from data)), frame'.
  split; [exact data_unique_keys|]. split; [apply Permutation_rev|].
  split; [exact Hload|]. split; [exact Hload'|]. split; [exact Hrows|].
  split; [reflexivity|].
  vm_compute in Hload'. inversion Hload'. reflexivity.
Defined.

(** X4. For a bank that has a record in the dataset, the rows of the frame
    selected on the bank are, with the same columns and in the same order, the
    rows of the frame that the records of the bank alone load to: they do not
    depend on the records of the other banks. The selected rows keep the
    labels of the whole dataset, the frame of the bank alone has its own. *)
Theorem bank_rows_depend_on_bank_only (d : list RawRecord) (bank : string)
  (frame : list (nat * ScoredRow)) (r0 : RawRecord)
  (Hin : In r0 d) (Hbank : Bank r0 = bank)
  (Hload : load_frame d = Some frame) :
  exists frame_of_bank,
    load_frame (filter (fun r => String.eqb (Bank r) bank) d) = Some frame_of_bank
    /\ map snd frame_of_bank
       = map snd (filter (fun p => String.eqb (Bank (rec (row (snd p)))) bank) frame)
    /\ Forall (labelled_by d)
              (filter (fun p => String.eqb (Bank (rec (row (snd p)))) bank) frame)
    /\ Forall (labelled_by (filter (fun r => String.eqb (Bank r) bank) d))
              frame_of_bank.
Proof.
  destruct (load_frame_rows d frame Hload) as (Hne & Hframe & Hrows & _ & _).
  assert (filter (fun r => String.eqb (Bank r) bank) d <> []) as Hne'.
  { intros Hnil.
    assert (In r0 (filter (fun r => String.eqb (Bank r) bank) d)) as H
        by (apply filter_In; split; [exact Hin | now apply String.eqb_eq]).
    rewrite Hnil in H. destruct H. }
  exists (combine (frame_index (filter (fun r => String.eqb (Bank r) bank) d))
                  (load_data_from (filter (fun r => String.eqb (Bank r) bank) d))).
  split; [now apply load_frame_some|].
  split; [|split].
  - rewrite combine_snd by (now rewrite frame_index_length, frame_length).
    rewrite <- bank_rows, <- Hrows.
    now rewrite (filter_of_map snd
                   (fun s => String.eqb (Bank (rec (row s))) bank)).
  - apply Forall_forall. intros p Hp. apply filter_In in Hp.
    pose proof (frame_labelled d) as Hall. rewrite <- Hframe in Hall.
    rewrite Forall_forall in Hall. apply Hall. tauto.
  - apply frame_labelled.
Qed.

(** The YES Bank rows of the frame of [load_data] and the frame of the three
    YES Bank records alone. *)
Lemma bank_rows_depend_on_bank_only_witness :
  exists frame frame_of_bank r0,
    In r0 data /\ Bank r0 = "YES Bank"%string
    /\ load_frame data = Some frame
    /\ load_frame (filter (fun r => String.eqb (Bank r) "YES Bank") data)
       = Some frame_of_bank
    /\ map snd frame_of_bank
       = map snd (filter (fun p => String.eqb (Bank (rec (row (snd p)))) "YES Bank")
                         frame)
    /\ List.length frame_of_bank = 3%nat.
Proof.
  assert (load_frame data = Some (combine (frame_index data) (load_data_from data)))
    as Hload by reflexivity.
  assert (In (hd (rec hdfc_fy2017) data) data) as Hin by (now left).
  destruct (bank_rows_depend_on_bank_only data "YES Bank" _ _ Hin eq_refl Hload)
    as (frame_of_bank & Hload' & Hrows & _ & _).
  exists (combine (frame_index data) (load_data_from data)), frame_of_bank,
    (hd (rec hdfc_fy2017) data).
  split; [exact Hin|]. split; [reflexivity|]. split; [exact Hload|].
  split; [exact Hload'|]. split; [exact Hrows|].
  vm_compute in Hload'. inversion Hload'. reflexivity.
Defined.

End LabelledFrame.

(** ** Loan growth against the previous row of the bank *)

Section GrowthAgainstPrevious.

Local Open Scope float_scope.

Lemma find_of_map {A B : Type} (f : A -> B) (p : B -> bool) l :
  find p (map f l) = option_map f (find (fun a => p (f a)) l).
Proof.
  induction l as [|a l IH]; simpl; [reflexivity|].
  destruct (p (f a)); [reflexivity | exact IH].
Qed.

Lemma sorted_before {A : Type} (R : A -> A -> Prop) pre s post p :
  StronglySorted R (pre ++ s :: post) -> In p pre -> R p s.
Proof.
  induction pre as [|x pre IH]; simpl; intros Hs Hin; [destruct Hin|].
  inversion Hs as [|? ? Hs' Hx]; subst.
  destruct Hin as [<-|Hin]; [|now apply IH].
  rewrite Forall_forall in Hx. apply Hx. apply in_or_app. right. now left.
Qed.

(** The loan growth of a row of the frame, from the rows above it. *)
Lemma loan_growth_at rows :
  forall above pre r post,
    loan_growth above rows = pre ++ r :: post ->
    Loan_Growth_Pct r
    = (of_int (Advances (rec r))
       / shifted (rev (map (fun r' => (rec r', ratios r')) pre) ++ above)
                 (Bank (rec r)) - 1) * 100.
Proof.
  induction rows as [|p rows IH]; intros above pre r post Heq.
  - destruct pre; discriminate.
  - simpl in Heq. destruct pre as [|r0 pre]; simpl in Heq.
    + inversion Heq; subst r; reflexivity.
    + inversion Heq as [[Hr0 Hrest]].
      rewrite (IH (p :: above) pre r post Hrest). simpl.
      rewrite <- app_assoc. simpl. now destruct p.
Qed.

(** The loan growth of a row of the frame with a row of its bank above it. *)
Lemma frame_growth_against_previous (d : list RawRecord)
  (pre post : list ScoredRow) (s p : ScoredRow) :
  load_data_from d = pre ++ s :: post ->
  find (fun s' => String.eqb (Bank (rec (row s'))) (Bank (rec (row s))))
       (rev pre) = Some p ->
  Loan_Growth_Pct (row s)
  = (of_int (Advances (rec (row s))) / of_int (Advances (rec (row p))) - 1) * 100
  /\ Bank (rec (row p)) = Bank (rec (row s))
  /\ String.leb (Year (rec (row p))) (Year (rec (row s))) = true.
Proof.
  intros Hframe Hprev.
  pose proof (frame_sorted d) as Hsorted. rewrite Hframe in Hsorted.
  pose proof (find_some _ _ Hprev) as [Hin Hbank].
  apply String.eqb_eq in Hbank. apply in_rev in Hin.
  split; [|split; [exact Hbank|]].
  - unfold load_data_from in Hframe.
    apply map_eq_app in Hframe. destruct Hframe as (l1 & l2 & Hl & Hpre & Hl2).
    destruct l2 as [|r l2]; [discriminate|]. simpl in Hl2.
    inversion Hl2 as [[Hs Hpost]]. subst pre s. simpl in *.
    rewrite (loan_growth_at _ _ _ _ _ Hl), app_nil_r.
    rewrite <- map_rev in Hprev. rewrite find_of_map in Hprev. simpl in Hprev.
    unfold shifted. rewrite <- map_rev, find_of_map. simpl.
    destruct (find _ (rev l1)) as [r'|]; [|discriminate].
    simpl in Hprev. inversion Hprev. reflexivity.
  - apply key_leb_same_bank; [|exact Hbank].
    exact (sorted_before frame_le _ _ _ _ Hsorted Hin).
Qed.

(** X5. A row of the frame with a row of its bank above it has, as loan
    growth, the percent change of its advances against the nearest such row,
    and that row is of the same or an earlier year. *)
Theorem loan_growth_against_previous_row (d : list RawRecord)
  (pre post : list ScoredRow) (s p : ScoredRow)
  (Hframe : load_data_from d = pre ++ s :: post)
  (Hprev : find (fun s' => String.eqb (Bank (rec (row s'))) (Bank (rec (row s))))
                (rev pre) = Some p) :
  Loan_Growth_Pct (row s)
  = (of_int (Advances (rec (row s))) / of_int (Advances (rec (row p))) - 1) * 100
  /\ Bank (rec (row p)) = Bank (rec (row s))
  /\ String.leb (Year (rec (row p))) (Year (rec (row s))) = true.
Proof.
  exact (frame_growth_against_previous d pre post s p Hframe Hprev).
Qed.

(** YES Bank FY2019, the last row of the frame, against YES Bank FY2018. *)
Lemma loan_growth_against_previous_row_witness :
  exists pre s p,
    load_data_from data = pre ++ [s]
    /\ find (fun s' => String.eqb (Bank (rec (row s'))) (Bank (rec (row s))))
            (rev pre) = Some p
    /\ Year (rec (row p)) = "FY2018"%string
    /\ Loan_Growth_Pct (row s) = (of_int 241000 / of_int 195000 - 1) * 100.
Proof.
  exists (firstn 23 load_data), (nth 23 load_data (score_row hdfc_fy2017)),
    (nth 22 load_data (score_row hdfc_fy2017)).
  assert (load_data_from data
          = firstn 23 load_data ++ [nth 23 load_data (score_row hdfc_fy2017)])
    as Hframe by reflexivity.
  assert (find (fun s' => String.eqb (Bank (rec (row s')))
                 (Bank (rec (row (nth 23 load_data (score_row hdfc_fy2017))))))
               (rev (firstn 23 load_data))
          = Some (nth 22 load_data (score_row hdfc_fy2017))) as Hprev
      by reflexivity.
  split; [exact Hframe|]. split; [exact Hprev|]. split; [reflexivity|].
  exact (proj1 (loan_growth_against_previous_row data _ _ _ _ Hframe Hprev)).
Defined.

End GrowthAgainstPrevious.

(** ** Loan growth by fiscal year *)

Section GrowthByYear.

Local Open Scope float_scope.

Lemma sorted_after {A : Type} (R : A -> A -> Prop) pre s post p :
  StronglySorted R (pre ++ s :: post) -> In p post -> R s p.
Proof.
  induction pre as [|x pre IH]; simpl; intros Hs Hin.
  - inversion Hs as [|? ? _ Hall]; subst.
    rewrite Forall_forall in Hall. now apply Hall.
  - inversion Hs; subst. now apply IH.
Qed.

Lemma forallb_false {A : Type} (f : A -> bool) l :
  forallb f l = false -> exists x, In x l /\ f x = false.
Proof.
  induction l as [|a l IH]; simpl; [discriminate|].
  destruct (f a) eqn:E; simpl.
  - intros H. destruct (IH H) as (x & Hx & Hf). exists x. auto.
  - intros _. exists a. auto.
Qed.

Lemma string_leb_refl a : String.leb a a = true.
Proof. unfold String.leb. now rewrite compare_refl. Qed.

Lemma string_leb_ltb a b : String.leb a b = true -> a <> b -> String.ltb a b = true.
Proof.
  unfold String.leb, String.ltb.
  destruct (String.compare a b) eqn:E; try discriminate; [|reflexivity].
  apply String.compare_eq_iff in E. congruence.
Qed.

(** The records of the frame are the records of the dataset. *)
Lemma frame_records d :
  Permutation (map (fun s => rec (row s)) (load_data_from d)) d.
Proof.
  pose proof (load_data_from_records d) as H.
  apply (Permutation_map fst) in H.
  rewrite !map_map in H. simpl in H. now rewrite map_id in H.
Qed.

(** With one record for a bank and year, a row of the frame has not the key of
    a row above it. *)
Lemma frame_keys_differ d pre s post p :
  NoDup (map key d) -> load_data_from d = pre ++ s :: post -> In p pre ->
  key (rec (row p)) <> key (rec (row s)).
Proof.
  intros Hkeys Hframe Hin Heq.
  assert (NoDup (map (fun s => key (rec (row s))) (load_data_from d))) as Hnd.
  { rewrite <- (map_map (fun s => rec (row s)) key).
    apply (Permutation_NoDup
             (Permutation_sym (Permutation_map key (frame_records d)))).
    exact Hkeys. }
  rewrite Hframe, map_app in Hnd. simpl in Hnd.
  apply NoDup_remove_2 in Hnd. apply Hnd.
  apply in_or_app. left. rewrite <- Heq.
  now apply (in_map (fun s => key (rec (row s)))).
Qed.

(** C7, as the code has it. In the frame of a dataset with one record for a
    bank and year, the loan growth of a bank's earliest year is NaN, and the
    loan growth of a later year is the percent change of the advances against
    the nearest row of the bank above, which is of an earlier year; a row with
    a NaN loan growth gets no points for it, its score being the sum of the
    other four contributions. In the frame of [load_data] the growth of every
    later year is a finite number. *)
Theorem loan_growth_absent_in_first_year (d : list RawRecord)
  (pre post : list ScoredRow) (s : ScoredRow)
  (Hkeys : NoDup (map key d))
  (Hframe : load_data_from d = pre ++ s :: post) :
  (earliest d (rec (row s)) = true -> is_nan (Loan_Growth_Pct (row s)) = true)
  /\ (earliest d (rec (row s)) = false ->
      exists p,
        find (fun s' => String.eqb (Bank (rec (row s'))) (Bank (rec (row s))))
             (rev pre) = Some p
        /\ In p pre
        /\ Bank (rec (row p)) = Bank (rec (row s))
        /\ String.ltb (Year (rec (row p))) (Year (rec (row s))) = true
        /\ Loan_Growth_Pct (row s)
           = (of_int (Advances (rec (row s))) / of_int (Advances (rec (row p)))
              - 1) * 100)
  /\ (is_nan (Loan_Growth_Pct (row s)) = true ->
      growth_pts (row s) = 0%Z
      /\ Spec.growth_points (row s) = 0%Z
      /\ calc_risk (row s)
         = (npa_pts (row s) + ldr_pts (row s) + borrowing_pts (row s)
            + profit_pts (row s))%Z)
  /\ Forall (fun s => growth_by_year data s = true) load_data
  /\ List.length (filter (fun s => earliest data (rec (row s))) load_data) = 8%nat.
Proof.
  pose proof (frame_sorted d) as Hsorted. rewrite Hframe in Hsorted.
  assert (forall p, In p pre -> Bank (rec (row p)) = Bank (rec (row s)) ->
                    String.ltb (Year (rec (row p))) (Year (rec (row s))) = true)
    as Hearlier.
  { intros p Hin Hbank. apply string_leb_ltb.
    - apply key_leb_same_bank; [|exact Hbank].
      exact (sorted_before frame_le _ _ _ _ Hsorted Hin).
    - intros Hyear. apply (frame_keys_differ d pre s post p Hkeys Hframe Hin).
      unfold key. now rewrite Hbank, Hyear. }
  split; [|split; [|split; [|split]]].
  - intros Hfirst. apply (frame_first_row d pre post s Hframe).
    intros p Hin Hbank. pose proof (Hearlier p Hin Hbank) as Hlt.
    unfold earliest in Hfirst. rewrite forallb_forall in Hfirst.
    assert (In (rec (row p)) d) as Hp.
    { apply (Permutation_in _ (frame_records d)).
      apply (in_map (fun s => rec (row s))). rewrite Hframe.
      apply in_or_app. now left. }
    specialize (Hfirst _ Hp). rewrite Hbank, String.eqb_refl in Hfirst.
    simpl in Hfirst. unfold String.ltb in Hlt. unfold String.leb in Hfirst.
    rewrite String.compare_antisym in Hfirst.
    destruct (String.compare (Year (rec (row p))) (Year (rec (row s))));
      discriminate.
  - intros Hlater. unfold earliest in Hlater. apply forallb_false in Hlater.
    destruct Hlater as (r' & Hr' & Hf).
    apply orb_false_elim in Hf. destruct Hf as [Hbank Hyear].
    apply negb_false_iff, String.eqb_eq in Hbank.
    apply (Permutation_in _ (Permutation_sym (frame_records d))) in Hr'.
    apply in_map_iff in Hr'. destruct Hr' as (s' & Hs' & Hin').
    subst r'. rewrite Hframe in Hin'.
    assert (In s' pre) as Hpre.
    { apply in_app_or in Hin'. destruct Hin' as [Hin'|[->|Hin']];
        [exact Hin' | now rewrite string_leb_refl in Hyear |].
      pose proof (sorted_after frame_le _ _ _ _ Hsorted Hin') as Hle.
      apply key_leb_same_bank in Hle; [congruence | now symmetry]. }
    destruct (find (fun s0 => String.eqb (Bank (rec (row s0))) (Bank (rec (row s))))
                   (rev pre)) as [p|] eqn:Hfind.
    + exists p. pose proof (find_some _ _ Hfind) as [Hin Hb].
      apply in_rev in Hin. apply String.eqb_eq in Hb.
      destruct (frame_growth_against_previous d pre post s p Hframe Hfind)
        as (Hgrowth & _ & _).
      repeat split; auto.
    + pose proof (find_none _ _ Hfind s') as Hnone.
      rewrite <- in_rev in Hnone. specialize (Hnone Hpre).
      apply String.eqb_neq in Hnone. contradiction.
  - intros Hnan. pose proof (growth_pts_absent (row s) Hnan) as H0.
    repeat split; [exact H0 | now rewrite growth_points_pts |].
    rewrite calc_risk_pts, H0. lia.
  - apply Forall_forall. apply forallb_forall. vm_compute. reflexivity.
  - vm_compute. reflexivity.
Qed.

Lemma data_keys : NoDup (map key data).
Proof.
  unfold data, key; simpl.
  repeat (constructor;
          [simpl; intros H;
           repeat (destruct H as [H|H]; [discriminate H|]); exact H|]).
  constructor.
Qed.

(** The loan growth of HDFC Bank FY2017 and FY2018, the seventh and eighth
    rows of the frame. *)
Lemma loan_growth_absent_in_first_year_witness :
  NoDup (map key data)
  /\ load_data_from data
     = firstn 7 load_data ++ nth 7 load_data (score_row hdfc_fy2017)
                             :: skipn 8 load_data
  /\ earliest data (rec (row (nth 7 load_data (score_row hdfc_fy2017)))) = false
  /\ exists p,
      Year (rec (row p)) = "FY2017"%string
      /\ Loan_Growth_Pct (row (nth 7 load_data (score_row hdfc_fy2017)))
         = (of_int 710000 / of_int (Advances (rec (row p))) - 1) * 100.
Proof.
  assert (load_data_from data
          = firstn 7 load_data ++ nth 7 load_data (score_row hdfc_fy2017)
                                  :: skipn 8 load_data) as Hframe
      by reflexivity.
  split; [exact data_keys|]. split; [exact Hframe|]. split; [reflexivity|].
  destruct (proj1 (proj2 (loan_growth_absent_in_first_year
                            data _ _ _ data_keys Hframe)) eq_refl)
    as (p & Hfind & Hin & Hbank & Hyear & Hgrowth).
  exists p. split; [|exact Hgrowth].
  vm_compute in Hfind. inversion Hfind. reflexivity.
Defined.

(** C7 as stated fails for the later years: after a year without advances
    the loan growth is [+infinity], not a finite number, and after two such
    years it is NaN, absent in a year that is not the bank's first. *)
Lemma later_year_growth_not_finite :
  NoDup (map key zero_advances)
  /\ map (fun s => (Year (rec (row s)), earliest zero_advances (rec (row s)),
                    Loan_Growth_Pct (row s)))
         (load_data_from zero_advances)
     = [ ("FY2016"%string, true, nan); ("FY2017"%string, false, infinity);
         ("FY2018"%string, false, (-100)%float); ("FY2019"%string, false, nan) ]
  /\ is_finite infinity = false
  /\ is_nan nan = true.
Proof.
  split; [|repeat split].
  unfold zero_advances, key; simpl.
  repeat (constructor;
          [simpl; intros H;
           repeat (destruct H as [H|H]; [discriminate H|]); exact H|]).
  constructor.
Qed.

End GrowthByYear.

(** ** The selection *)

Section Selection.

Local Open Scope string_scope.

Lemma filter_all {A : Type} (l : list A) : filter (fun _ => true) l = l.
Proof. induction l as [|a l IH]; simpl; [reflexivity | now rewrite IH]. Qed.

Lemma filter_twice {A : Type} (p q : A -> bool) l :
  filter p (filter q l) = filter (fun a => q a && p a) l.
Proof.
  induction l as [|a l IH]; simpl; [reflexivity|].
  destruct (q a); simpl; [destruct (p a)|]; now rewrite IH.
Qed.

Lemma filter_if {A : Type} (t : bool) (p : A -> bool) l :
  (if t then filter p l else l) = filter (fun a => if t then p a else true) l.
Proof. destruct t; [reflexivity | symmetry; apply filter_all]. Qed.

Lemma filter_df_keeps b y c df : filter_df b y c df = filter (keeps b y c) df.
Proof.
  unfold filter_df. cbv zeta.
  rewrite (filter_if (negb (b =? "All Banks"))).
  rewrite (filter_if (negb (y =? "All Years"))).
  rewrite (filter_if (negb (c =? "All"))).
  rewrite !filter_twice. apply filter_ext. intros s.
  unfold keeps. now rewrite andb_assoc.
Qed.

Lemma keeps_selected b y c s : keeps b y c s = true <-> selected b y c s.
Proof.
  unfold keeps, selected. rewrite !andb_true_iff.
  assert (forall box sentinel v : string,
             (if negb (box =? sentinel) then v =? box else true) = true
             <-> (box = sentinel \/ v = box)) as H.
  { intros box sentinel v.
    destruct (String.eqb_spec box sentinel) as [He|Hne]; simpl.
    - split; auto.
    - rewrite String.eqb_eq. split; [auto | intros [Hs|Hv]; congruence]. }
  now rewrite !H.
Qed.

Lemma filter_df_In b y c df s :
  In s (filter_df b y c df) <-> In s df /\ selected b y c s.
Proof. now rewrite filter_df_keeps, filter_In, keeps_selected. Qed.

(** X6. The three filters keep exactly the rows of the frame that agree with
    every box that is not on its "All" option, in the order of the frame; with
    the three boxes on "All" the frame is kept whole, and filtering twice
    changes nothing. *)
Theorem filter_df_keeps_selected (b y c : string) (df : list ScoredRow) :
  (forall s, In s (filter_df b y c df) <-> In s df /\ selected b y c s)
  /\ filter_df b y c df = filter (keeps b y c) df
  /\ filter_df "All Banks" "All Years" "All" df = df
  /\ filter_df b y c (filter_df b y c df) = filter_df b y c df.
Proof.
  split; [intros s; apply filter_df_In|].
  split; [apply filter_df_keeps|]. split; [reflexivity|].
  rewrite !filter_df_keeps, filter_twice.
  apply filter_ext. intros s. now destruct (keeps b y c s).
Qed.

Lemma risk_display_None l : risk_display l = None <-> l = [].
Proof.
  unfold risk_display. destruct l as [|s l]; simpl List.length.
  - split; reflexivity.
  - destruct (Z.ltb_spec 0 (Z.of_nat (S (List.length l)))); [|lia].
    split; discriminate.
Qed.

(** X7. The display falls to the "No data available" warning exactly when no
    row of the frame agrees with the selection; otherwise it shows a score. *)
Theorem no_data_iff_nothing_selected (b y c : string) (df : list ScoredRow) :
  (risk_display (filter_df b y c df) = None
   <-> forall s, In s df -> ~ selected b y c s)
  /\ ((exists s, In s df /\ selected b y c s)
      -> exists avg label, risk_display (filter_df b y c df) = Some (avg, label)).
Proof.
  split; [rewrite risk_display_None; split|].
  - intros Hnil s Hin Hsel.
    assert (In s (filter_df b y c df)) as H by (apply filter_df_In; auto).
    rewrite Hnil in H. destruct H.
  - intros Hnone. destruct (filter_df b y c df) as [|s l] eqn:E; [reflexivity|].
    assert (In s (filter_df b y c df)) as H by (rewrite E; now left).
    apply filter_df_In in H. destruct H as [Hin Hsel].
    destruct (Hnone s Hin Hsel).
  - intros (s & Hin & Hsel).
    destruct (risk_display (filter_df b y c df)) as [[avg label]|] eqn:E;
      [eauto|].
    apply risk_display_None in E.
    assert (In s (filter_df b y c df)) as H by (apply filter_df_In; auto).
    rewrite E in H. destruct H.
Qed.

End Selection.

(** ** The banner against the rows *)

Section Banner.

Local Open Scope string_scope.

Lemma classify_high s : classify s = "HIGH RISK" <-> 70 <= s.
Proof.
  unfold classify. rewrite !Z.geb_leb.
  destruct (Z.leb_spec 70 s), (Z.leb_spec 40 s);
    split; intros; try discriminate; try lia; reflexivity.
Qed.

Lemma classify_medium s : classify s = "MEDIUM RISK" <-> 40 <= s < 70.
Proof.
  unfold classify. rewrite !Z.geb_leb.
  destruct (Z.leb_spec 70 s), (Z.leb_spec 40 s);
    split; intros; try discriminate; try lia; reflexivity.
Qed.

Lemma classify_low s : classify s = "LOW RISK" <-> s < 40.
Proof.
  unfold classify. rewrite !Z.geb_leb.
  destruct (Z.leb_spec 70 s), (Z.leb_spec 40 s);
    split; intros; try discriminate; try lia; reflexivity.
Qed.

Lemma mean_label_high total count :
  Spec.mean_label total count = "HIGH RISK" <-> 70 * count <= total.
Proof.
  unfold Spec.mean_label.
  destruct (Z.leb_spec (70 * count) total), (Z.leb_spec (40 * count) total);
    split; intros; try discriminate; try lia; reflexivity.
Qed.

Lemma mean_label_medium total count :
  Spec.mean_label total count = "MEDIUM RISK"
  <-> 40 * count <= total < 70 * count.
Proof.
  unfold Spec.mean_label.
  destruct (Z.leb_spec (70 * count) total), (Z.leb_spec (40 * count) total);
    split; intros; try discriminate; try lia; reflexivity.
Qed.

Lemma mean_label_low total count :
  0 < count -> Spec.mean_label total count = "LOW RISK" <-> total < 40 * count.
Proof.
  intros Hc. unfold Spec.mean_label.
  destruct (Z.leb_spec (70 * count) total), (Z.leb_spec (40 * count) total);
    split; intros; try discriminate; try lia; reflexivity.
Qed.

Lemma sum_between lo hi (l : list ScoredRow) :
  Forall (fun s => lo <= Risk_Score s <= hi) l ->
  lo * Z.of_nat (List.length l) <= sum (map Risk_Score l)
  <= hi * Z.of_nat (List.length l).
Proof.
  induction 1 as [|s l Hs Hl IH]; simpl List.length; simpl map;
    unfold sum in *; simpl fold_right; lia.
Qed.

Lemma sum_reaches k (l : list ScoredRow) :
  l <> [] -> k * Z.of_nat (List.length l) <= sum (map Risk_Score l) ->
  exists s, In s l /\ k <= Risk_Score s.
Proof.
  induction l as [|s l IH]; [congruence|]. intros _ H.
  destruct (Z.le_gt_cases k (Risk_Score s)) as [Hs|Hs].
  - exists s. split; [now left | exact Hs].
  - destruct l as [|s' l'].
    + unfold sum in H. simpl in H. lia.
    + destruct IH as (x & Hx & Hk); [discriminate | |].
      * unfold sum in *. simpl List.length in *. simpl map in *.
        simpl fold_right in *. lia.
      * exists x. split; [now right | exact Hk].
Qed.

Lemma sum_falls k (l : list ScoredRow) :
  sum (map Risk_Score l) < k * Z.of_nat (List.length l) ->
  exists s, In s l /\ Risk_Score s < k.
Proof.
  induction l as [|s l IH]; intros H.
  - unfold sum in H. simpl in H. lia.
  - destruct (Z.lt_ge_cases (Risk_Score s) k) as [Hs|Hs].
    + exists s. split; [now left | exact Hs].
    + destruct IH as (x & Hx & Hk).
      * unfold sum in *. simpl List.length in *. simpl map in *.
        simpl fold_right in *. lia.
      * exists x. split; [now right | exact Hk].
Qed.

Lemma scored_sum_bounds (l : list ScoredRow) :
  Forall scored l ->
  0 <= sum (map Risk_Score l) <= 100 * Z.of_nat (List.length l).
Proof.
  intros H.
  assert (Forall (fun s => 0 <= Risk_Score s <= 100) l) as Hb.
  { eapply Forall_impl; [|exact H].
    intros s [Hs _]. rewrite Hs. apply calc_risk_bounds. }
  pose proof (sum_between 0 100 l Hb). lia.
Qed.

(** The label of the banner is the label of the exact mean. *)
Lemma banner_label (l : list ScoredRow) :
  l <> [] -> (List.length l <= 24)%nat -> Forall scored l ->
  risk_cat (avg_risk l)
  = Spec.mean_label (sum (map Risk_Score l)) (Z.of_nat (List.length l)).
Proof.
  intros Hne Hlen Hs.
  assert (1 <= Z.of_nat (List.length l)) as Hcount
      by (destruct l; [congruence | simpl List.length; lia]).
  assert (1 <= Z.of_nat (List.length l) <= 24) as Hrange by lia.
  pose proof (mean_agrees_frame _ _ Hrange (scored_sum_bounds l Hs)) as H.
  unfold mean_agrees in H. cbv zeta in H.
  apply andb_prop in H. destruct H as [H _].
  apply andb_prop in H. destruct H as [H _].
  apply String.eqb_eq in H. unfold avg_risk, mean. now rewrite length_map.
Qed.

(** X8. When every row of a selection of at most 24 scored rows has the same
    label, the banner over the selection shows that label; so the banner of a
    single row is the row's own label. *)
Theorem uniform_group_label (filtered_df : list ScoredRow) (label : string)
  (Hne : filtered_df <> [])
  (Hlen : (List.length filtered_df <= 24)%nat)
  (Hscored : Forall scored filtered_df)
  (Hall : Forall (fun s => Risk_Category s = label) filtered_df) :
  risk_display filtered_df = Some (avg_risk filtered_df, label).
Proof.
  assert (1 <= Z.of_nat (List.length filtered_df)) as Hcount
      by (destruct filtered_df; [congruence | simpl List.length; lia]).
  unfold risk_display.
  destruct (Z.ltb_spec 0 (Z.of_nat (List.length filtered_df))); [|lia].
  f_equal. f_equal. rewrite (banner_label _ Hne Hlen Hscored).
  assert (exists s, In s filtered_df) as [s0 Hs0]
      by (destruct filtered_df as [|s l]; [congruence | exists s; now left]).
  rewrite Forall_forall in Hall, Hscored.
  pose proof (Hall s0 Hs0) as Hlabel.
  destruct (Hscored s0 Hs0) as [_ Hcat]. rewrite Hcat in Hlabel.
  unfold classify in Hlabel.
  destruct (Risk_Score s0 >=? 70) eqn:E70; [|destruct (Risk_Score s0 >=? 40) eqn:E40];
    subst label.
  - apply mean_label_high.
    apply (sum_between 70 100). apply Forall_forall. intros s Hs.
    destruct (Hscored s Hs) as [Hsc Hcat']. specialize (Hall s Hs).
    rewrite Hcat' in Hall. apply classify_high in Hall.
    pose proof (calc_risk_bounds (row s)). rewrite <- Hsc in *. lia.
  - apply mean_label_medium.
    assert (40 * Z.of_nat (List.length filtered_df)
            <= sum (map Risk_Score filtered_df)
            <= 69 * Z.of_nat (List.length filtered_df)); [|lia].
    apply sum_between. apply Forall_forall. intros s Hs.
    destruct (Hscored s Hs) as [Hsc Hcat']. specialize (Hall s Hs).
    rewrite Hcat' in Hall. apply classify_medium in Hall. lia.
  - apply mean_label_low; [lia|].
    assert (0 * Z.of_nat (List.length filtered_df)
            <= sum (map Risk_Score filtered_df)
            <= 39 * Z.of_nat (List.length filtered_df)); [|lia].
    apply sum_between. apply Forall_forall. intros s Hs.
    destruct (Hscored s Hs) as [Hsc Hcat']. specialize (Hall s Hs).
    rewrite Hcat' in Hall. apply classify_low in Hall.
    pose proof (calc_risk_bounds (row s)). rewrite <- Hsc in *. lia.
Qed.

Lemma frame_scored d : Forall scored (load_data_from d).
Proof.
  apply Forall_forall. intros s Hs. unfold load_data_from in Hs.
  apply in_map_iff in Hs. destruct Hs as (r & <- & _). split; reflexivity.
Qed.

Lemma selection_scored b y c d : Forall scored (filter_df b y c (load_data_from d)).
Proof.
  apply Forall_forall. intros s Hs. apply filter_df_In in Hs.
  pose proof (frame_scored d) as H. rewrite Forall_forall in H.
  apply H. tauto.
Qed.

(** The banner with HDFC Bank selected: three LOW RISK rows, LOW RISK. *)
Lemma uniform_group_label_witness :
  hdfc_rows <> [] /\ (List.length hdfc_rows <= 24)%nat
  /\ Forall scored hdfc_rows
  /\ Forall (fun s => Risk_Category s = "LOW RISK") hdfc_rows
  /\ risk_display hdfc_rows = Some (avg_risk hdfc_rows, "LOW RISK").
Proof.
  assert (hdfc_rows <> []) as Hne by (intros H; vm_compute in H; discriminate H).
  assert ((List.length hdfc_rows <= 24)%nat) as Hlen by (vm_compute; lia).
  assert (Forall scored hdfc_rows) as Hs by apply selection_scored.
  assert (Forall (fun s => Risk_Category s = "LOW RISK") hdfc_rows) as Hall.
  { apply Forall_forall. intros s Hin. vm_compute in Hin.
    destruct Hin as [<-|[<-|[<-|[]]]]; reflexivity. }
  repeat (split; [assumption|]).
  exact (uniform_group_label hdfc_rows "LOW RISK" Hne Hlen Hs Hall).
Defined.

(** X9. Over a selection of at most 24 scored rows, a HIGH RISK banner comes
    with a High Risk Count of at least one, and a LOW RISK banner with at least
    one LOW RISK row: the mean never leaves the range of the rows. *)
Theorem banner_within_rows (filtered_df : list ScoredRow)
  (Hne : filtered_df <> [])
  (Hlen : (List.length filtered_df <= 24)%nat)
  (Hscored : Forall scored filtered_df) :
  (risk_cat (avg_risk filtered_df) = "HIGH RISK" -> 1 <= high_risk filtered_df)
  /\ (risk_cat (avg_risk filtered_df) = "LOW RISK" ->
      exists s, In s filtered_df /\ Risk_Category s = "LOW RISK")
  /\ (high_risk filtered_df = 0 -> risk_cat (avg_risk filtered_df) <> "HIGH RISK").
Proof.
  assert (1 <= Z.of_nat (List.length filtered_df)) as Hcount
      by (destruct filtered_df; [congruence | simpl List.length; lia]).
  rewrite (banner_label _ Hne Hlen Hscored).
  assert (Spec.mean_label (sum (map Risk_Score filtered_df))
            (Z.of_nat (List.length filtered_df)) = "HIGH RISK" ->
          1 <= high_risk filtered_df) as Hhigh.
  { intros H. apply mean_label_high in H.
    destruct (sum_reaches 70 filtered_df Hne H) as (s & Hin & Hs).
    rewrite Forall_forall in Hscored. destruct (Hscored s Hin) as [_ Hcat].
    apply classify_high in Hs. rewrite <- Hcat in Hs.
    unfold high_risk.
    assert (In s (filter (fun s => Risk_Category s =? "HIGH RISK") filtered_df))
      as Hf by (apply filter_In; split; [exact Hin | now apply String.eqb_eq]).
    destruct (filter _ filtered_df); [destruct Hf | simpl List.length; lia]. }
  split; [exact Hhigh|]. split.
  - intros H. apply mean_label_low in H; [|lia].
    destruct (sum_falls 40 filtered_df H) as (s & Hin & Hs).
    exists s. split; [exact Hin|].
    rewrite Forall_forall in Hscored. destruct (Hscored s Hin) as [_ Hcat].
    rewrite Hcat. now apply classify_low.
  - intros H0 H. apply Hhigh in H. lia.
Qed.

(** The banner with YES Bank and FY2019 selected: HIGH RISK, one row counted. *)
Lemma banner_within_rows_witness :
  yes_bank_fy2019 <> [] /\ (List.length yes_bank_fy2019 <= 24)%nat
  /\ Forall scored yes_bank_fy2019
  /\ risk_cat (avg_risk yes_bank_fy2019) = "HIGH RISK"
  /\ 1 <= high_risk yes_bank_fy2019.
Proof.
  assert (yes_bank_fy2019 <> []) as Hne
      by (intros H; vm_compute in H; discriminate H).
  assert ((List.length yes_bank_fy2019 <= 24)%nat) as Hlen by (vm_compute; lia).
  assert (Forall scored yes_bank_fy2019) as Hs by apply selection_scored.
  repeat (split; [assumption|]).
  split; [reflexivity|].
  exact (proj1 (banner_within_rows yes_bank_fy2019 Hne Hlen Hs) eq_refl).
Defined.

End Banner.

(** ** Missing and infinite ratios *)

Section SpecialValues.

Local Open Scope float_scope.

Lemma pts3_of_nan v t1 t2 t3 p q s :
  is_nan v = true -> pts3 (gtb v t1) (gtb v t2) (gtb v t3) p q s = 0%Z.
Proof.
  intros H. unfold pts3, gtb. now rewrite !(nan_ltb_r _ v H).
Qed.

(** X10. A missing (NaN) ratio is not rejected but scored in silence as the
    safest band: a NaN gross NPA, LDR, borrowing ratio or loan growth scores
    like a value of 0, and a NaN profit margin like a margin of 15. *)
Theorem nan_is_scored_as_safest (r : Row) (v : float) (Hnan : is_nan v = true) :
  calc_risk (with_Gross_NPA v r) = calc_risk (with_Gross_NPA 0 r)
  /\ calc_risk (with_LDR v r) = calc_risk (with_LDR 0 r)
  /\ calc_risk (with_Borrowing_Ratio v r) = calc_risk (with_Borrowing_Ratio 0 r)
  /\ calc_risk (with_Loan_Growth_Pct v r) = calc_risk (with_Loan_Growth_Pct 0 r)
  /\ calc_risk (with_Profit_Margin v r) = calc_risk (with_Profit_Margin 15 r).
Proof.
  rewrite !calc_risk_pts. repeat split.
  - assert (npa_pts (with_Gross_NPA v r) = npa_pts (with_Gross_NPA 0 r)) as H
        by (unfold npa_pts; simpl; now rewrite pts3_of_nan).
    frame with_Gross_NPA v 0 r. lia.
  - assert (ldr_pts (with_LDR v r) = ldr_pts (with_LDR 0 r)) as H
        by (unfold ldr_pts; simpl; now rewrite pts3_of_nan).
    frame with_LDR v 0 r. lia.
  - assert (borrowing_pts (with_Borrowing_Ratio v r)
            = borrowing_pts (with_Borrowing_Ratio 0 r)) as H
        by (unfold borrowing_pts; simpl; now rewrite pts3_of_nan).
    frame with_Borrowing_Ratio v 0 r. lia.
  - assert (growth_pts (with_Loan_Growth_Pct v r)
            = growth_pts (with_Loan_Growth_Pct 0 r)) as H
        by (unfold growth_pts, notna; simpl; now rewrite Hnan).
    frame with_Loan_Growth_Pct v 0 r. lia.
  - assert (profit_pts (with_Profit_Margin v r)
            = profit_pts (with_Profit_Margin 15 r)) as H.
    { unfold profit_pts, pts3; simpl. now rewrite !(nan_ltb_l v _ Hnan). }
    frame with_Profit_Margin v 15 r. lia.
Qed.

(** The score of the HDFC Bank FY2017 row without its LDR. *)
Lemma nan_is_scored_as_safest_witness :
  is_nan nan = true
  /\ calc_risk (with_LDR nan hdfc_fy2017) = calc_risk (with_LDR 0 hdfc_fy2017).
Proof.
  split; [reflexivity|].
  exact (proj1 (proj2 (nan_is_scored_as_safest hdfc_fy2017 nan eq_refl))).
Defined.

(** X11. An infinite ratio is scored like a finite one past the last
    threshold: [+infinity] takes the top band of gross NPA, LDR, borrowing
    ratio and loan growth and no points as a profit margin; [-infinity] takes
    no points on those four and the low-margin band as a profit margin. *)
Theorem infinity_is_scored (r : Row) :
  calc_risk (with_Gross_NPA infinity r) = calc_risk (with_Gross_NPA 11 r)
  /\ calc_risk (with_LDR infinity r) = calc_risk (with_LDR 111 r)
  /\ calc_risk (with_Borrowing_Ratio infinity r)
     = calc_risk (with_Borrowing_Ratio 16 r)
  /\ calc_risk (with_Loan_Growth_Pct infinity r)
     = calc_risk (with_Loan_Growth_Pct 36 r)
  /\ calc_risk (with_Profit_Margin infinity r) = calc_risk (with_Profit_Margin 15 r)
  /\ calc_risk (with_Gross_NPA neg_infinity r) = calc_risk (with_Gross_NPA 0 r)
  /\ calc_risk (with_LDR neg_infinity r) = calc_risk (with_LDR 0 r)
  /\ calc_risk (with_Borrowing_Ratio neg_infinity r)
     = calc_risk (with_Borrowing_Ratio 0 r)
  /\ calc_risk (with_Loan_Growth_Pct neg_infinity r)
     = calc_risk (with_Loan_Growth_Pct 0 r)
  /\ calc_risk (with_Profit_Margin neg_infinity r)
     = calc_risk (with_Profit_Margin 0 r)
  /\ ldr_pts (with_LDR infinity r) = 25%Z.
Proof.
  rewrite !calc_risk_pts. repeat split.
Qed.

End SpecialValues.

(** ** How many metrics it takes *)

Section Metrics.

Local Open Scope string_scope.

(** X12. No single metric moves a row out of LOW RISK, and no two make it
    HIGH RISK: a row with points from at most one metric is LOW RISK, and a
    HIGH RISK row has points from at least three. *)
Theorem flag_needs_several_metrics (r : Row) :
  (scoring_metrics r <= 1 -> classify (calc_risk r) = "LOW RISK")
  /\ (classify (calc_risk r) <> "LOW RISK" -> 2 <= scoring_metrics r)
  /\ (classify (calc_risk r) = "HIGH RISK" -> 3 <= scoring_metrics r)
  /\ (scoring_metrics r = 0 <-> calc_risk r = 0).
Proof.
  rewrite classify_low, classify_high, calc_risk_pts.
  pose proof (npa_pts_bounds r). pose proof (ldr_pts_bounds r).
  pose proof (borrowing_pts_bounds r). pose proof (profit_pts_bounds r).
  pose proof (growth_pts_bounds r).
  unfold scoring_metrics.
  destruct (Z.eqb_spec (npa_pts r) 0), (Z.eqb_spec (ldr_pts r) 0),
    (Z.eqb_spec (borrowing_pts r) 0), (Z.eqb_spec (profit_pts r) 0),
    (Z.eqb_spec (growth_pts r) 0); repeat split; intros; lia.
Qed.

End Metrics.

(** ** The select boxes *)

Section SelectBoxes.

Local Open Scope string_scope.

Lemma existsb_eqb_In x seen : existsb (String.eqb x) seen = true <-> In x seen.
Proof.
  rewrite existsb_exists. split.
  - intros (y & Hy & Heq). apply String.eqb_eq in Heq. now subst.
  - intros H. exists x. split; [exact H | apply String.eqb_refl].
Qed.

Lemma unique_from_In l : forall seen x,
  In x (unique_from seen l) <-> In x l /\ ~ In x seen.
Proof.
  induction l as [|y l IH]; intros seen x; simpl; [tauto|].
  destruct (existsb (String.eqb y) seen) eqn:E.
  - apply existsb_eqb_In in E. rewrite IH. split.
    + tauto.
    + intros [[->|Hin] Hs]; [contradiction | tauto].
  - assert (~ In y seen) as Hy.
    { intros H. apply existsb_eqb_In in H. congruence. }
    simpl. rewrite IH. simpl. split.
    + intros [->|[Hin Hs]]; [tauto|]. split; [tauto|]. intros H. apply Hs. tauto.
    + intros [[->|Hin] Hs]; [tauto|].
      destruct (String.eqb_spec y x) as [->|Hne]; [tauto|].
      right. split; [exact Hin|]. intros [H|H]; contradiction.
Qed.

Lemma unique_from_NoDup l : forall seen, NoDup (unique_from seen l).
Proof.
  induction l as [|y l IH]; intros seen; simpl; [constructor|].
  destruct (existsb (String.eqb y) seen); [apply IH|].
  constructor; [|apply IH].
  rewrite unique_from_In. simpl. tauto.
Qed.

Lemma insert_sorted_perm x l : Permutation (insert_sorted x l) (x :: l).
Proof.
  induction l as [|y l IH]; simpl; [reflexivity|].
  destruct (String.leb x y); [reflexivity|].
  rewrite IH. apply perm_swap.
Qed.

Lemma sorted_perm l : Permutation (sorted l) l.
Proof.
  induction l as [|x l IH]; simpl; [reflexivity|].
  rewrite insert_sorted_perm. now constructor.
Qed.

Lemma insert_sorted_Forall (P : string -> Prop) x l :
  P x -> Forall P l -> Forall P (insert_sorted x l).
Proof.
  intros Hx Hl. induction Hl as [|y l Hy Hl IH]; simpl.
  - now constructor.
  - destruct (String.leb x y); repeat (constructor; auto).
Qed.

Lemma insert_sorted_sorted x l :
  StronglySorted (fun a b => String.leb a b = true) l ->
  StronglySorted (fun a b => String.leb a b = true) (insert_sorted x l).
Proof.
  induction 1 as [|y l Hs IH Hy]; simpl.
  - constructor; constructor.
  - destruct (String.leb x y) eqn:E.
    + constructor; [now constructor|].
      constructor; [exact E|].
      eapply Forall_impl; [|exact Hy].
      intros z Hz. exact (string_leb_trans _ _ _ E Hz).
    + constructor; [exact IH|].
      apply insert_sorted_Forall; [|exact Hy].
      destruct (String.leb_total x y); congruence.
Qed.

Lemma sorted_is_sorted l :
  StronglySorted (fun a b => String.leb a b = true) (sorted l).
Proof.
  induction l as [|x l IH]; simpl; [constructor | now apply insert_sorted_sorted].
Qed.

(** The options of a select box after its "All" entry, for any column. *)
Lemma options_of_column (column : ScoredRow -> string) (df : list ScoredRow) :
  (forall v, In v (sorted (unique (map column df)))
             <-> exists s, In s df /\ column s = v)
  /\ NoDup (sorted (unique (map column df)))
  /\ StronglySorted (fun a b => String.leb a b = true)
                    (sorted (unique (map column df))).
Proof.
  split; [|split; [|apply sorted_is_sorted]].
  - intros v. split.
    + intros H. apply (Permutation_in _ (sorted_perm _)) in H.
      apply unique_from_In in H. destruct H as [H _].
      apply in_map_iff in H. destruct H as (s & Hs & Hin). eauto.
    + intros (s & Hin & Hs).
      apply (Permutation_in _ (Permutation_sym (sorted_perm _))).
      apply unique_from_In. split; [|intros []].
      subst v. now apply in_map.
  - apply (Permutation_NoDup (Permutation_sym (sorted_perm _))).
    apply unique_from_NoDup.
Qed.

(** X13. The bank box lists "All Banks" and then every bank of the frame,
    once each, in ascending order; the year box does the same with the years.
    Whatever bank is picked from the box, with the other two boxes on "All",
    the selection is not empty and the display shows a score. *)
Theorem select_box_options (df : list ScoredRow) :
  hd_error (bank_list df) = Some "All Banks"
  /\ (forall b, In b (tl (bank_list df))
                <-> exists s, In s df /\ Bank (rec (row s)) = b)
  /\ NoDup (tl (bank_list df))
  /\ StronglySorted (fun a b => String.leb a b = true) (tl (bank_list df))
  /\ hd_error (year_list df) = Some "All Years"
  /\ (forall y, In y (tl (year_list df))
                <-> exists s, In s df /\ Year (rec (row s)) = y)
  /\ NoDup (tl (year_list df))
  /\ StronglySorted (fun a b => String.leb a b = true) (tl (year_list df))
  /\ (forall b, In b (tl (bank_list df)) ->
                exists avg label,
                  risk_display (filter_df b "All Years" "All" df)
                  = Some (avg, label)).
Proof.
  destruct (options_of_column (fun s => Bank (rec (row s))) df) as (Hb1 & Hb2 & Hb3).
  destruct (options_of_column (fun s => Year (rec (row s))) df) as (Hy1 & Hy2 & Hy3).
  unfold bank_list, year_list. simpl.
  repeat (split; [first [reflexivity | assumption]|]).
  intros b Hin. apply Hb1 in Hin. destruct Hin as (s & Hin & Hs).
  destruct (risk_display (filter_df b "All Years" "All" df))
    as [[avg label]|] eqn:E; [eauto|].
  apply risk_display_None in E.
  assert (In s (filter_df b "All Years" "All" df)) as H.
  { apply filter_df_In. split; [exact Hin|]. unfold selected. auto. }
  rewrite E in H. destruct H.
Qed.

End SelectBoxes.

(** ** The two copies of the thresholds *)

Section Thresholds.

Local Open Scope string_scope.

Lemma labels_agree_on_scores :
  range_check (fun total _ => risk_cat (of_int total) =? classify total) 1 = true.
Proof. vm_compute. reflexivity. Qed.

(** X14. The label the banner's copy of the thresholds gives a score taken as
    a float is the label the frame's copy gives it as an integer, for every
    score a row can get. *)
Theorem thresholds_agree (r : Row) :
  risk_cat (of_int (calc_risk r)) = classify (calc_risk r)
  /\ risk_cat (of_int (Risk_Score (score_row r))) = Risk_Category (score_row r).
Proof.
  assert (risk_cat (of_int (calc_risk r)) = classify (calc_risk r)) as H.
  { apply String.eqb_eq.
    apply (range_check_sound
             (fun total _ => risk_cat (of_int total) =? classify total) 1
             labels_agree_on_scores (calc_risk r) 1); [simpl; lia|].
    pose proof (calc_risk_bounds r). lia. }
  split; exact H.
Qed.

(** X15. In any selection of any frame the High Risk Count is the number of
    rows scored 70 or more, and it is at most the number of rows selected. *)
Theorem high_risk_counts_scores (d : list RawRecord) (b y c : string) :
  high_risk (filter_df b y c (load_data_from d))
  = Z.of_nat (List.length
                (filter (fun s => Z.leb 70 (Risk_Score s))
                        (filter_df b y c (load_data_from d))))
  /\ 0 <= high_risk (filter_df b y c (load_data_from d))
     <= Z.of_nat (List.length (filter_df b y c (load_data_from d))).
Proof.
  split.
  - unfold high_risk. f_equal. f_equal.
    apply filter_ext_in. intros s Hs.
    pose proof (selection_scored b y c d) as Hsc. rewrite Forall_forall in Hsc.
    destruct (Hsc s Hs) as [_ Hcat]. rewrite Hcat.
    destruct (Z.leb_spec 70 (Risk_Score s)) as [Hle|Hlt].
    + apply String.eqb_eq. now apply classify_high.
    + apply String.eqb_neq. rewrite classify_high. lia.
  - unfold high_risk.
    pose proof (filter_length_le (fun s => Risk_Category s =? "HIGH RISK")
                  (filter_df b y c (load_data_from d))). lia.
Qed.

Lemma means_in_range :
  range_check (fun total count =>
                 PrimFloat.leb 0 (of_int total / of_int count)
                 && PrimFloat.leb (of_int total / of_int count) 100) 24 = true.
Proof. vm_compute. reflexivity. Qed.

(** X16. The score the banner shows for a selection of at most 24 scored rows
    is a number between 0 and 100. *)
Theorem banner_score_range (filtered_df : list ScoredRow)
  (Hne : filtered_df <> [])
  (Hlen : (List.length filtered_df <= 24)%nat)
  (Hscored : Forall scored filtered_df) :
  PrimFloat.leb 0 (avg_risk filtered_df) = true
  /\ PrimFloat.leb (avg_risk filtered_df) 100 = true.
Proof.
  assert (1 <= Z.of_nat (List.length filtered_df) <= 24) as Hrange
      by (destruct filtered_df; [congruence | simpl List.length in *; lia]).
  pose proof (range_check_sound _ 24 means_in_range _ _ Hrange
                (scored_sum_bounds filtered_df Hscored)) as H.
  simpl in H. apply andb_prop in H.
  unfold avg_risk, mean. now rewrite length_map.
Qed.

(** The banner with YES Bank selected shows a score between 0 and 100. *)
Lemma banner_score_range_witness :
  yes_bank_rows <> [] /\ (List.length yes_bank_rows <= 24)%nat
  /\ Forall scored yes_bank_rows
  /\ PrimFloat.leb 0 (avg_risk yes_bank_rows) = true
  /\ PrimFloat.leb (avg_risk yes_bank_rows) 100 = true.
Proof.
  assert (yes_bank_rows <> []) as Hne
      by (intros H; vm_compute in H; discriminate H).
  assert ((List.length yes_bank_rows <= 24)%nat) as Hlen by (vm_compute; lia).
  assert (Forall scored yes_bank_rows) as Hs by apply selection_scored.
  repeat (split; [assumption|]).
  exact (banner_score_range yes_bank_rows Hne Hlen Hs).
Defined.

End Thresholds.

(** ** The analysis section across runs *)

Section Latch.

Local Open Scope string_scope.

Lemma has_key_set_key key value st : has_key key (set_key key value st) = true.
Proof. unfold has_key, set_key. simpl. now rewrite String.eqb_refl. Qed.

Lemma run_script_key df r st :
  has_key "analyzed" (snd (run_script df r st))
  = analyze_clicked r || has_key "analyzed" st.
Proof.
  unfold run_script.
  destruct (analyze_clicked r || has_key "analyzed" st) eqn:E; cbn [snd].
  - apply has_key_set_key.
  - apply orb_false_elim in E. tauto.
Qed.

Lemma run_session_nth df runs :
  forall st n r,
    nth_error runs n = Some r ->
    nth_error (run_session df runs st) n
    = Some (if has_key "analyzed" st
               || existsb analyze_clicked (firstn (S n) runs)
            then Some (risk_display
                         (filter_df (selected_bank r) (selected_year r)
                                    (selected_category r) df))
            else None).
Proof.
  induction runs as [|r0 runs IH]; intros st n r Hn.
  - destruct n; discriminate.
  - destruct n as [|n]; cbn [nth_error] in Hn.
    + inversion Hn; subst r0. cbn [run_session nth_error firstn existsb].
      unfold run_script.
      rewrite orb_false_r, (orb_comm (has_key _ _)).
      now destruct (analyze_clicked r || has_key "analyzed" st).
    + cbn [run_session nth_error]. rewrite (IH _ n r Hn), run_script_key.
      change (firstn (S (S n)) (r0 :: runs)) with (r0 :: firstn (S n) runs).
      cbn [existsb].
      now rewrite (orb_comm (analyze_clicked r0)), <- orb_assoc.
Qed.

(** X17. In a session that starts without the [analyzed] key, a run renders
    the analysis section exactly when the Analyze button was clicked on that
    run or on an earlier one; the section it renders is the display for the
    selection of that very run. *)
Theorem analysis_shown_once_clicked (df : list ScoredRow) (runs : list Run)
  (st : session) (n : nat) (r : Run)
  (Hfresh : has_key "analyzed" st = false)
  (Hrun : nth_error runs n = Some r) :
  nth_error (run_session df runs st) n
  = Some (if existsb analyze_clicked (firstn (S n) runs)
          then Some (risk_display
                       (filter_df (selected_bank r) (selected_year r)
                                  (selected_category r) df))
          else None).
Proof.
  rewrite (run_session_nth df runs st n r Hrun), Hfresh. reflexivity.
Qed.

(** Three runs: a look at the page, a click with YES Bank selected, then a
    change of the category box to Healthy, which YES Bank is not. *)
Lemma analysis_shown_once_clicked_witness :
  has_key "analyzed" [] = false
  /\ nth_error [mkRun false "All Banks" "All Years" "All";
                mkRun true "YES Bank" "All Years" "All";
                mkRun false "YES Bank" "All Years" "Healthy"] 2
     = Some (mkRun false "YES Bank" "All Years" "Healthy")
  /\ nth_error (run_session load_data
                  [mkRun false "All Banks" "All Years" "All";
                   mkRun true "YES Bank" "All Years" "All";
                   mkRun false "YES Bank" "All Years" "Healthy"] []) 2
     = Some (Some None).
Proof.
  split; [reflexivity|]. split; [reflexivity|].
  exact (analysis_shown_once_clicked load_data
           [mkRun false "All Banks" "All Years" "All";
            mkRun true "YES Bank" "All Years" "All";
            mkRun false "YES Bank" "All Years" "Healthy"] [] 2
           (mkRun false "YES Bank" "All Years" "Healthy") eq_refl eq_refl).
Defined.

End Latch.
